(** * The e-commerce backend: product listing with a cache, order placement

    A shallow embedding of the Express server of the backend
    ([app.get('/api/products')] and [app.post('/api/orders')]) together
    with the two collaborators it talks to: the PostgreSQL store, reached
    through [pool] and [client], and the Redis cache, reached through
    [redisClient].

    Conventions.
    - Money in the store is a [Z] number of hundredths, the scale of the
      [DECIMAL(10, 2)] columns [products.price], [orders.total] and
      [order_items.price]: 29.99 is [2999].
    - Numbers of JavaScript are IEEE 754 doubles, [spec_float] at precision
      53.  The driver hands a [DECIMAL] over as its text, ["29.99"], so
      [total += price * item.quantity] converts the text to the nearest
      double, multiplies and adds with the rounding of doubles; [total] goes
      back to the store as the text of that double, which the store rounds
      to two decimals.
    - Timestamps and the clock are [Z] seconds.
    - An [await]ed call to the store or to the cache either returns or
      throws.  Which calls throw is decided by a fault plan carried by the
      world: one boolean per call, [true] for a call that throws.  A fault
      of the store stands for anything that makes PostgreSQL reject or lose a
      statement (connectivity, a violated constraint, a value out of range
      for its column). *)

From stdpp Require Import gmap strings list.
From Stdlib Require Import ZArith Lia Sorting.Sorted Sorting.Permutation.
From Stdlib Require Import Floats.SpecFloat.

Local Open Scope Z_scope.

(** ** Rows of the schema created by [initDB] *)

Record product := Product {
  product_id : Z;
  product_name : string;
  product_description : string;
  product_price : Z;
  product_stock : Z;
  product_image_url : string;
  product_created_at : Z
}.

Record order := Order {
  order_id : Z;
  order_user_id : Z;
  order_status : string;
  order_total : Z;
  order_created_at : Z
}.

Record order_item := OrderItem {
  order_item_id : Z;
  order_item_order_id : Z;
  order_item_product_id : Z;
  order_item_quantity : Z;
  order_item_price : Z
}.

Record tables := Tables {
  products : list product;
  orders : list order;
  order_items : list order_item
}.

(** The store: the committed tables, the snapshot the open transaction of
    [client] works on ([None] when the connection is idle), and the two
    [SERIAL] sequences.  Sequences are not transactional: a rolled back
    insert keeps its number. *)
Record pgstate := PgState {
  committed : tables;
  tx : option tables;
  orders_id_seq : Z;
  order_items_id_seq : Z
}.

(** ** The request of [POST /api/orders]

    [req.body] after [express.json()]: [{ user_id, items: [{ product_id,
    quantity }] }] with integer fields; [items] may be absent
    ([undefined]). *)
Record item := Item {
  item_product_id : Z;
  item_quantity : Z
}.

Record order_request := OrderRequest {
  user_id : Z;
  items : option (list item)
}.

(** ** Numbers

    The numbers of JavaScript: binary64. *)
Definition number : Type := spec_float.

Definition js_add : number → number → number := SFadd 53 1024.

Definition js_mul : number → number → number := SFmul 53 1024.

(** The nearest double to an integer: exact below 2^53. *)
Definition Number_of_Z (z : Z) : number := binary_normalize 53 1024 z 0 false.

(** [Number(text)] for the text of a [DECIMAL(10, 2)] of [p] hundredths:
    the nearest double to [p / 100].  Both [p] and 100 are doubles, and
    the division of doubles rounds their quotient to the nearest. *)
Definition Number_of_decimal (p : Z) : number :=
  SFdiv 53 1024 (Number_of_Z p) (Number_of_Z 100).

(** The integer part of [m * 2^e * 1000]. *)
Definition thousandths (m : positive) (e : Z) : Z :=
  if 0 <=? e then Z.pos m * 1000 * 2 ^ e else Z.pos m * 1000 / 2 ^ (- e).

(** What a [DECIMAL(10, 2)] column keeps of a number bound to a
    parameter, in hundredths.  The driver sends the text of the number,
    the shortest decimal that reads back as the same double, and the store
    rounds that decimal to two places, halves away from zero.  The shortest
    decimal rounds as the double itself does, except when a decimal with
    three places ending in 5 reads back as this double while lying above
    it: then the text is that decimal, and it rounds up.  (Within the
    range of the column, no shorter decimal reads back as the same double.)

    [NaN] and the infinities come only out of a quantity beyond the doubles,
    which the [INTEGER] column of the line does not take: the statement of
    the line has failed before; 0 stands for what is kept of them. *)
Definition decimal_of_number (x : number) : Z :=
  match x with
  | S754_finite s m e =>
    let n := thousandths m e in
    let half_above :=
      ((n + 1) mod 10 =? 5) &&
      SFeqb (SFdiv 53 1024 (Number_of_Z (n + 1)) (Number_of_Z 1000))
            (S754_finite false m e) in
    let q := if half_above then (n + 6) / 10 else (n + 5) / 10 in
    if s then - q else q
  | _ => 0
  end.

(** ** Exceptions, statements and the trace of calls *)

Inductive exn :=
  | TypeError     (* [undefined] is not iterable, [undefined.price] *)
  | SyntaxError   (* [JSON.parse] of a text that is not JSON *)
  | PgError       (* a rejected promise of [pool] or [client] *)
  | RedisError.   (* a rejected promise of [redisClient] *)

Inductive sql :=
  | SqlBegin
  | SqlCommit
  | SqlRollback
  | SqlInsertOrder (user : Z) (status : string) (total : Z)
  | SqlSelectPrice (id : Z)
  | SqlInsertOrderItem (oid pid quantity price : Z)
  | SqlUpdateOrderTotal (total : number) (oid : Z)
  | SqlSelectInStock.

Inductive event :=
  | EvConnect
  | EvRelease
  | EvClientQuery (q : sql)
  | EvPoolQuery (q : sql)
  | EvRedisGet (key : string)
  | EvRedisSetEx (key : string) (ttl : Z) (value : string)
  | EvRedisDel (key : string).

Inductive outcome (A : Type) :=
  | Ok (a : A)
  | Throw (e : exn).
Arguments Ok {A} a.
Arguments Throw {A} e.

(** ** The statements on the tables *)

Definition insert_order_row (o : order) (t : tables) : tables :=
  Tables (products t) (orders t ++ [o]) (order_items t).

Definition insert_order_item_row (r : order_item) (t : tables) : tables :=
  Tables (products t) (orders t) (order_items t ++ [r]).

Definition set_total (total oid : Z) (o : order) : order :=
  if order_id o =? oid
  then Order (order_id o) (order_user_id o) (order_status o) total (order_created_at o)
  else o.

Definition update_order_total_rows (total oid : Z) (t : tables) : tables :=
  Tables (products t) (set_total total oid <$> orders t) (order_items t).

(** [SELECT price FROM products WHERE id = $1] *)
Definition select_price_rows (id : Z) (ps : list product) : list Z :=
  product_price <$> filter (λ p, product_id p = id) ps.

(** [ORDER BY created_at DESC]: insertion of a row into rows that are
    already newest first, before the rows that are not newer than it, so
    that rows of equal age keep the order of the table. *)
Fixpoint insert_newest_first (p : product) (ps : list product) : list product :=
  match ps with
  | [] => [p]
  | q :: qs =>
    if product_created_at q <=? product_created_at p
    then p :: q :: qs
    else q :: insert_newest_first p qs
  end.

Definition order_by_created_at_desc (ps : list product) : list product :=
  foldr insert_newest_first [] ps.

(** [SELECT ... FROM products WHERE stock > 0 ORDER BY created_at DESC] *)
Definition select_in_stock_rows (ps : list product) : list product :=
  order_by_created_at_desc (filter (λ p, 0 < product_stock p) ps).

(** The tables a statement sees: the snapshot of the open transaction, or
    the committed tables when there is none. *)
Definition view (s : pgstate) : tables :=
  match tx s with
  | Some t => t
  | None => committed s
  end.

(** A write: on the snapshot of the open transaction, or at once on the
    committed tables (autocommit) when there is none. *)
Definition write (f : tables → tables) (s : pgstate) : pgstate :=
  match tx s with
  | Some t => PgState (committed s) (Some (f t)) (orders_id_seq s) (order_items_id_seq s)
  | None => PgState (f (committed s)) None (orders_id_seq s) (order_items_id_seq s)
  end.

(** [BEGIN]; inside a transaction it only warns. *)
Definition pg_begin (s : pgstate) : pgstate :=
  match tx s with
  | Some _ => s
  | None => PgState (committed s) (Some (committed s)) (orders_id_seq s) (order_items_id_seq s)
  end.

(** [COMMIT]; outside a transaction it only warns. *)
Definition pg_commit (s : pgstate) : pgstate :=
  match tx s with
  | Some t => PgState t None (orders_id_seq s) (order_items_id_seq s)
  | None => s
  end.

(** [ROLLBACK]; outside a transaction it only warns. *)
Definition pg_rollback (s : pgstate) : pgstate :=
  PgState (committed s) None (orders_id_seq s) (order_items_id_seq s).

Definition next_orders_id (s : pgstate) : pgstate :=
  PgState (committed s) (tx s) (orders_id_seq s + 1) (order_items_id_seq s).

Definition next_order_items_id (s : pgstate) : pgstate :=
  PgState (committed s) (tx s) (orders_id_seq s) (order_items_id_seq s + 1).

(** ** The cache

    A key holds a text and the time at which it expires. *)
Definition cache_read (c : gmap string (string * Z)) (now : Z) (key : string) : option string :=
  match c !! key with
  | Some (v, expires) => if now <? expires then Some v else None
  | None => None
  end.

(** [if (cached)]: [null] and the empty text are falsy. *)
Definition truthy (cached : option string) : option string :=
  match cached with
  | Some s => if String.eqb s EmptyString then None else Some s
  | None => None
  end.

(** The next entry of a fault plan; a plan that has run out has no fault
    left. *)
Definition next_fault (plan : list bool) : bool * list bool :=
  match plan with
  | [] => (false, [])
  | b :: rest => (b, rest)
  end.

Definition healthy (plan : list bool) : bool := forallb negb plan.

(** ** The server *)

Section Server.

(** [JSON.parse] and [JSON.stringify] belong to the runtime: values of
    JavaScript as [JSON.parse] builds them, [None] for a text on which it
    throws. *)
Variable json : Type.
Variable JSON_parse : string → option json.
Variable JSON_stringify : list product → string.

(** What a handler passes to [res.json]. *)
Inductive body :=
  | Rows (rows : list product)            (* [result.rows] *)
  | Parsed (v : json)                     (* [JSON.parse(cached)] *)
  | ErrorBody (error : string)            (* [{ error }] *)
  | OrderCreated (orderId : Z) (total : number).   (* [{ orderId, total }] *)

Record response := Response {
  status : Z;
  payload : body
}.

(** The world a handler runs in: the store, the cache, the clock, the
    fault plans of the store and of the cache, the calls made so far, and
    the response sent on [res] ([None] as long as none was sent). *)
Record world := World {
  pg : pgstate;
  redis : gmap string (string * Z);
  now : Z;
  pg_faults : list bool;
  redis_faults : list bool;
  trace : list event;
  res : option response
}.

Definition set_pg (f : pgstate → pgstate) (w : world) : world :=
  World (f (pg w)) (redis w) (now w) (pg_faults w) (redis_faults w) (trace w) (res w).

Definition set_redis (f : gmap string (string * Z) → gmap string (string * Z)) (w : world) : world :=
  World (pg w) (f (redis w)) (now w) (pg_faults w) (redis_faults w) (trace w) (res w).

Definition set_pg_faults (plan : list bool) (w : world) : world :=
  World (pg w) (redis w) (now w) plan (redis_faults w) (trace w) (res w).

Definition set_redis_faults (plan : list bool) (w : world) : world :=
  World (pg w) (redis w) (now w) (pg_faults w) plan (trace w) (res w).

Definition log (e : event) (w : world) : world :=
  World (pg w) (redis w) (now w) (pg_faults w) (redis_faults w) (trace w ++ [e]) (res w).

Definition set_res (r : response) (w : world) : world :=
  World (pg w) (redis w) (now w) (pg_faults w) (redis_faults w) (trace w) (Some r).

(** *** Computations that change the world and may throw *)

Definition M (A : Type) : Type := world → outcome A * world.

Definition ret {A} (a : A) : M A := λ w, (Ok a, w).

Definition throw {A} (e : exn) : M A := λ w, (Throw e, w).

Definition bind {A B} (m : M A) (k : A → M B) : M B := λ w,
  match m w with
  | (Ok a, w') => k a w'
  | (Throw e, w') => (Throw e, w')
  end.

Notation "'let*' x ':=' m 'in' k" := (bind m (λ x, k))
  (at level 10, x pattern, m at level 100, k at level 200).

(** [try { m } catch (error) { h error }] *)
Definition try_catch {A} (m : M A) (h : exn → M A) : M A := λ w,
  match m w with
  | (Ok a, w') => (Ok a, w')
  | (Throw e, w') => h e w'
  end.

(** [try { m } finally { f }], for an [f] that does not throw. *)
Definition try_finally {A} (m : M A) (f : world → world) : M A := λ w,
  match m w with
  | (r, w') => (r, f w')
  end.

(** A call to the store: logged, then it throws or not as the plan says. *)
Definition pg_call (e : event) : M unit := λ w,
  let (fault, rest) := next_fault (pg_faults w) in
  let w' := set_pg_faults rest (log e w) in
  if fault then (Throw PgError, w') else (Ok tt, w').

Definition redis_call (e : event) : M unit := λ w,
  let (fault, rest) := next_fault (redis_faults w) in
  let w' := set_redis_faults rest (log e w) in
  if fault then (Throw RedisError, w') else (Ok tt, w').

Definition get {A} (f : world → A) : M A := λ w, (Ok (f w), w).

Definition modify (f : world → world) : M unit := λ w, (Ok tt, f w).

(** [pool.connect()] and [client.release()] *)
Definition pool_connect : M unit := pg_call EvConnect.

Definition client_release : world → world := log EvRelease.

(** [client.query('BEGIN')], ['COMMIT'], ['ROLLBACK'] *)
Definition client_begin : M unit :=
  let* _ := pg_call (EvClientQuery SqlBegin) in
  modify (set_pg pg_begin).

Definition client_commit : M unit :=
  let* _ := pg_call (EvClientQuery SqlCommit) in
  modify (set_pg pg_commit).

Definition client_rollback : M unit :=
  let* _ := pg_call (EvClientQuery SqlRollback) in
  modify (set_pg pg_rollback).

(** [INSERT INTO orders (user_id, status, total) VALUES ($1, $2, $3)
    RETURNING *]; the result is [orderResult.rows[0]]. *)
Definition client_insert_order (user : Z) (st : string) (total : Z) : M order :=
  let* _ := pg_call (EvClientQuery (SqlInsertOrder user st total)) in
  let* _ := modify (set_pg next_orders_id) in
  let* id := get (λ w, orders_id_seq (pg w)) in
  let* created := get now in
  let row := Order id user st total created in
  let* _ := modify (set_pg (write (insert_order_row row))) in
  ret row.

(** [SELECT price FROM products WHERE id = $1]; the result is
    [product.rows]. *)
Definition client_select_price (id : Z) : M (list Z) :=
  let* _ := pg_call (EvClientQuery (SqlSelectPrice id)) in
  get (λ w, select_price_rows id (products (view (pg w)))).

(** [INSERT INTO order_items (order_id, product_id, quantity, price)
    VALUES ($1, $2, $3, $4)] *)
Definition client_insert_order_item (oid pid quantity price : Z) : M unit :=
  let* _ := pg_call (EvClientQuery (SqlInsertOrderItem oid pid quantity price)) in
  let* _ := modify (set_pg next_order_items_id) in
  let* id := get (λ w, order_items_id_seq (pg w)) in
  modify (set_pg (write (insert_order_item_row (OrderItem id oid pid quantity price)))).

(** [UPDATE orders SET total = $1 WHERE id = $2], with the number [total]
    for [$1]. *)
Definition client_update_order_total (total : number) (oid : Z) : M unit :=
  let* _ := pg_call (EvClientQuery (SqlUpdateOrderTotal total oid)) in
  modify (set_pg (write (update_order_total_rows (decimal_of_number total) oid))).

(** [pool.query] of the product listing, on a connection of its own: it
    sees the committed tables. *)
Definition pool_select_in_stock : M (list product) :=
  let* _ := pg_call (EvPoolQuery SqlSelectInStock) in
  get (λ w, select_in_stock_rows (products (committed (pg w)))).

(** [redisClient.get], [redisClient.setEx], [redisClient.del] *)
Definition redis_get (key : string) : M (option string) :=
  let* _ := redis_call (EvRedisGet key) in
  get (λ w, cache_read (redis w) (now w) key).

Definition redis_setEx (key : string) (ttl : Z) (value : string) : M unit :=
  let* _ := redis_call (EvRedisSetEx key ttl value) in
  modify (λ w, set_redis (insert key (value, now w + ttl)) w).

Definition redis_del (key : string) : M unit :=
  let* _ := redis_call (EvRedisDel key) in
  modify (set_redis (delete key)).

(** [res.status(code).json(b)] *)
Definition res_json (code : Z) (b : body) : M unit :=
  modify (set_res (Response code b)).

(** *** [app.get('/api/products')] *)

Definition get_products : M unit :=
  try_catch
    (let* cached := redis_get "products" in
     match truthy cached with
     | Some text =>
       match JSON_parse text with
       | Some v => res_json 200 (Parsed v)
       | None => throw SyntaxError
       end
     | None =>
       let* rows := pool_select_in_stock in
       let* _ := redis_setEx "products" 300 (JSON_stringify rows) in
       res_json 200 (Rows rows)
     end)
    (λ error, res_json 500 (ErrorBody "Internal server error")).

(** *** [app.post('/api/orders')] *)

(** The body of [for (const item of items)], with the running [total].
    [price] is the text of a [DECIMAL]: [price * item.quantity] converts it
    to a number, and [total += ...] adds numbers; the insert passes the
    text on as it is. *)
Fixpoint add_order_items (orderId : Z) (its : list item) (total : number) : M number :=
  match its with
  | [] => ret total
  | it :: rest =>
    let* rows := client_select_price (item_product_id it) in
    match rows with
    | [] => throw TypeError
    | price :: _ =>
      let total :=
        js_add total (js_mul (Number_of_decimal price) (Number_of_Z (item_quantity it))) in
      let* _ := client_insert_order_item orderId (item_product_id it) (item_quantity it) price in
      add_order_items orderId rest total
    end
  end.

(** [let total = 0] and the loop. *)
Definition for_of_items (orderId : Z) (its : option (list item)) : M number :=
  match its with
  | None => throw TypeError
  | Some l => add_order_items orderId l (Number_of_Z 0)
  end.

(** The [try] block. *)
Definition create_order (req : order_request) : M unit :=
  let* _ := client_begin in
  let* orderResult := client_insert_order (user_id req) "pending" 0 in
  let orderId := order_id orderResult in
  let* total := for_of_items orderId (items req) in
  let* _ := client_update_order_total total orderId in
  let* _ := client_commit in
  let* _ := redis_del "products" in
  res_json 201 (OrderCreated orderId total).

(** The [catch] block. *)
Definition order_failed (error : exn) : M unit :=
  let* _ := client_rollback in
  res_json 500 (ErrorBody "Failed to create order").

Definition post_orders (req : order_request) : M unit :=
  let* _ := pool_connect in
  try_finally (try_catch (create_order req) order_failed) client_release.

End Server.

Arguments Rows {json} rows.
Arguments Parsed {json} v.
Arguments ErrorBody {json} error.
Arguments OrderCreated {json} orderId total.
Arguments Response {json} status payload.
Arguments status {json} r.
Arguments payload {json} r.
Arguments World {json} pg redis now pg_faults redis_faults trace res.
Arguments pg {json} w.
Arguments redis {json} w.
Arguments now {json} w.
Arguments pg_faults {json} w.
Arguments redis_faults {json} w.
Arguments trace {json} w.
Arguments res {json} w.
Arguments set_pg {json} f w.
Arguments set_redis {json} f w.
Arguments set_pg_faults {json} plan w.
Arguments set_redis_faults {json} plan w.
Arguments log {json} e w.
Arguments set_res {json} r w.
Arguments ret {json A} a w.
Arguments throw {json A} e w.
Arguments bind {json A B} m k w.
Arguments try_catch {json A} m h w.
Arguments try_finally {json A} m f w.
Arguments pg_call {json} e w.
Arguments redis_call {json} e w.
Arguments get {json A} f w.
Arguments modify {json} f w.
Arguments pool_connect {json} w.
Arguments client_release {json} w.
Arguments client_begin {json} w.
Arguments client_commit {json} w.
Arguments client_rollback {json} w.
Arguments client_insert_order {json} user st total w.
Arguments client_select_price {json} id w.
Arguments client_insert_order_item {json} oid pid quantity price w.
Arguments client_update_order_total {json} total oid w.
Arguments pool_select_in_stock {json} w.
Arguments redis_get {json} key w.
Arguments redis_setEx {json} key ttl value w.
Arguments redis_del {json} key w.
Arguments res_json {json} code b w.
Arguments get_products {json} JSON_parse JSON_stringify w.
Arguments add_order_items {json} orderId its total w.
Arguments for_of_items {json} orderId its w.
Arguments create_order {json} req w.
Arguments order_failed {json} error w.
Arguments post_orders {json} req w.

Notation "'let*' x ':=' m 'in' k" := (bind m (λ x, k))
  (at level 10, x pattern, m at level 100, k at level 200).

(** ** What the specification speaks of *)

(** The world once a call to the store, or to the cache, was logged and
    took its entry of the plan. *)
Definition pg_called {json} (e : event) (w : world json) : world json :=
  set_pg_faults (tail (pg_faults w)) (log e w).

Definition redis_called {json} (e : event) (w : world json) : world json :=
  set_redis_faults (tail (redis_faults w)) (log e w).

(** Does the [n]-th call (from 0) of a plan throw? *)
Definition fails_at (plan : list bool) (n : nat) : bool :=
  default false (plan !! n).

(** The unit price of a product: [product.rows[0].price]. *)
Definition price_of (ps : list product) (id : Z) : option Z :=
  head (select_price_rows id ps).

Definition product_exists (ps : list product) (it : item) : Prop :=
  is_Some (price_of ps (item_product_id it)).

(** The sum over all lines of (unit price x quantity), in hundredths, as
    exact arithmetic has it. *)
Definition sum_of_lines (ps : list product) (its : list item) : Z :=
  foldr (λ it acc, default 0 (price_of ps (item_product_id it)) * item_quantity it + acc) 0 its.

(** The number a line stands for: the unit price, read as a number, times
    the quantity. *)
Definition line_amount (price quantity : Z) : number :=
  js_mul (Number_of_decimal price) (Number_of_Z quantity).

(** The number in [total] once the lines [its] were added to it, one after
    the other. *)
Definition running_total (ps : list product) (total : number) (its : list item) : number :=
  foldl (λ acc it,
           js_add acc (line_amount (default 0 (price_of ps (item_product_id it)))
                                   (item_quantity it)))
        total its.

(** The total of an order: the lines added to 0. *)
Definition total_of_lines (ps : list product) (its : list item) : number :=
  running_total ps (Number_of_Z 0) its.

(** A number that is not below zero; [NaN], which is below nothing,
    counts. *)
Definition not_below_zero (x : number) : bool :=
  match x with
  | S754_zero _ | S754_nan => true
  | S754_infinity s | S754_finite s _ _ => negb s
  end.

(** One [order_items] row per line, numbered from the sequence, with the
    unit price of its product. *)
Fixpoint order_item_rows (ps : list product) (oid seq : Z) (its : list item) : list order_item :=
  match its with
  | [] => []
  | it :: rest =>
    OrderItem (seq + 1) oid (item_product_id it) (item_quantity it)
              (default 0 (price_of ps (item_product_id it)))
    :: order_item_rows ps oid (seq + 1) rest
  end.

(** The statements the loop sends for its lines. *)
Fixpoint line_queries (ps : list product) (oid : Z) (its : list item) : list event :=
  match its with
  | [] => []
  | it :: rest =>
    EvClientQuery (SqlSelectPrice (item_product_id it))
    :: EvClientQuery (SqlInsertOrderItem oid (item_product_id it) (item_quantity it)
                        (default 0 (price_of ps (item_product_id it))))
    :: line_queries ps oid rest
  end.

(** The committed tables once an order of [user] for the lines [its] went
    through, from the tables [c], the sequences [oseq] and [iseq] and the
    clock [t] before it. *)
Definition tables_with_order (c : tables) (oseq iseq t user : Z) (its : list item) : tables :=
  update_order_total_rows (decimal_of_number (total_of_lines (products c) its)) (oseq + 1)
    (Tables (products c)
            (orders c ++ [Order (oseq + 1) user "pending" 0 t])
            (order_items c ++ order_item_rows (products c) (oseq + 1) iseq its)).

(** The world once the loop has gone through the lines [its], inside a
    transaction whose snapshot was [t]. *)
Definition lines_added {json} (t : tables) (oid : Z) (its : list item)
    (w : world json) : world json :=
  World (PgState (committed (pg w))
                 (Some (Tables (products t) (orders t)
                          (order_items t ++
                           order_item_rows (products t) oid (order_items_id_seq (pg w)) its)))
                 (orders_id_seq (pg w))
                 (order_items_id_seq (pg w) + Z.of_nat (length its)))
        (redis w) (now w)
        (drop (2 * length its) (pg_faults w))
        (redis_faults w)
        (trace w ++ line_queries (products t) oid its)
        (res w).

(** [w] is inside a transaction that has changed neither the committed
    tables, nor the cache, nor the response of [w0]. *)
Definition in_transaction {json} (w0 w : world json) : Prop :=
  committed (pg w) = committed (pg w0) ∧
  is_Some (tx (pg w)) ∧
  redis w = redis w0 ∧
  res w = res w0.

(** The calls of a handler that places an order for the lines [its], up
    to [COMMIT] and the invalidation of the listing. *)
Definition order_calls (ps : list product) (oseq user : Z) (its : list item) : list event :=
  [EvConnect; EvClientQuery SqlBegin;
   EvClientQuery (SqlInsertOrder user "pending" 0)] ++
  line_queries ps (oseq + 1) its ++
  [EvClientQuery (SqlUpdateOrderTotal (total_of_lines ps its) (oseq + 1));
   EvClientQuery SqlCommit; EvRedisDel "products"].

(** The store once the order went through. *)
Definition pg_with_order (s : pgstate) (t user : Z) (its : list item) : pgstate :=
  PgState (tables_with_order (committed s) (orders_id_seq s) (order_items_id_seq s) t user its)
          None
          (orders_id_seq s + 1)
          (order_items_id_seq s + Z.of_nat (length its)).

(** The world once [post_orders] has placed the order and answered 201. *)
Definition order_placed {json} (user : Z) (its : list item) (w : world json) : world json :=
  let ps := products (committed (pg w)) in
  World (pg_with_order (pg w) (now w) user its)
        (delete "products" (redis w))
        (now w)
        (drop (5 + 2 * length its) (pg_faults w))
        (tail (redis_faults w))
        (trace w ++ order_calls ps (orders_id_seq (pg w)) user its ++ [EvRelease])
        (Some (Response 201
                 (OrderCreated (orders_id_seq (pg w) + 1) (total_of_lines ps its)))).

(** The world once [post_orders] has committed the order, failed to
    invalidate the listing, and answered 500 from its [catch] block. *)
Definition order_placed_reported_failed {json} (user : Z) (its : list item)
    (w : world json) : world json :=
  let ps := products (committed (pg w)) in
  World (pg_with_order (pg w) (now w) user its)
        (redis w)
        (now w)
        (drop (6 + 2 * length its) (pg_faults w))
        (tail (redis_faults w))
        (trace w ++ order_calls ps (orders_id_seq (pg w)) user its ++
         [EvClientQuery SqlRollback; EvRelease])
        (Some (Response 500 (ErrorBody "Failed to create order"))).

(** The three ways a run of [post_orders] from [w] to [w'] can go. *)
Inductive post_orders_outcome {json} (req : order_request) (w w' : world json) : Prop :=
  | NothingPersisted :
      committed (pg w') = committed (pg w) →
      redis w' = redis w →
      res w' = res w ∨
        res w' = Some (Response 500 (ErrorBody "Failed to create order")) →
      post_orders_outcome req w w'
  | Placed its :
      items req = Some its →
      Forall (product_exists (products (committed (pg w)))) its →
      fails_at (redis_faults w) 0 = false →
      w' = order_placed (user_id req) its w →
      post_orders_outcome req w w'
  | PlacedReportedFailed its :
      items req = Some its →
      Forall (product_exists (products (committed (pg w)))) its →
      fails_at (redis_faults w) 0 = true →
      pg w' = pg_with_order (pg w) (now w) (user_id req) its →
      redis w' = redis w →
      res w' = res w ∨
        res w' = Some (Response 500 (ErrorBody "Failed to create order")) →
      post_orders_outcome req w w'.

(** Rows are newest first. *)
Definition newest_first (ps : list product) : Prop :=
  Sorted (λ p q, product_created_at q ≤ product_created_at p) ps.

(** Every identifier of [orders] was drawn from the sequence. *)
Definition orders_from_seq (s : pgstate) : Prop :=
  Forall (λ o, order_id o ≤ orders_id_seq s) (orders (committed s)).

(** ** A catalog, the one [initDB] seeds, and worlds to run the handlers in *)

Definition seeded : list product :=
  [ Product 1 "Laptop Pro" "High-performance laptop" 129999 50 "Laptop" 0;
    Product 2 "Wireless Mouse" "Ergonomic wireless mouse" 2999 200 "Mouse" 0;
    Product 3 "Mechanical Keyboard" "RGB mechanical keyboard" 8999 100 "Keyboard" 0;
    Product 4 "4K Monitor" "27-inch 4K display" 39999 75 "Monitor" 0 ].

(** A stand-in for the runtime's JSON: a listing is printed as the names
    of its rows between brackets, and a text is read back as itself when
    it starts with a bracket. *)
Definition print_names (rows : list product) : string :=
  "[" +:+ String.concat "," (product_name <$> rows) +:+ "]".

Definition read_bracketed (text : string) : option string :=
  if String.prefix "[" text then Some text else None.

(** The store after start-up, an empty cache, no fault, the clock at
    [1000]. *)
Definition fresh : world string :=
  World (PgState (Tables seeded [] []) None 0 0) ∅ 1000 [] [] [] None.

(** The same with a cache whose next call throws. *)
Definition cache_down : world string :=
  World (PgState (Tables seeded [] []) None 0 0) ∅ 1000 [] [true] [] None.

(** The same with a listing in the cache that expires at [1200]. *)
Definition warm : world string :=
  World (PgState (Tables seeded [] []) None 0 0)
        {[ "products" := ("[Laptop Pro]", 1200) ]} 1000 [] [] [] None.

(** ** The other routes and the start-up

    [GET /api/products/:id], [GET /ready] and [initDB].  These routes
    answer with bodies of their own, so a handler here returns the answer it
    sends.  Their calls to the store and to the cache take their entry of
    the fault plans like any other call; the trace keeps to the calls of
    the listing and of the orders. *)

Inductive answer_body :=
  | ProductBody (p : product)        (* [result.rows[0]] *)
  | ErrorAnswer (error : string)     (* [{ error }] *)
  | ReadyBody                        (* [{ status: 'ready' }] *)
  | NotReadyBody (error : exn).      (* [{ status: 'not ready', error: error.message }] *)

Record answer := Answer {
  answer_status : Z;
  answer_body_of : answer_body
}.

(** An awaited call to the store, or to the cache, of these routes. *)
Definition pg_await {json} : M json unit := λ w,
  let (fault, rest) := next_fault (pg_faults w) in
  let w' := set_pg_faults rest w in
  if fault then (Throw PgError, w') else (Ok tt, w').

Definition redis_await {json} : M json unit := λ w,
  let (fault, rest) := next_fault (redis_faults w) in
  let w' := set_redis_faults rest w in
  if fault then (Throw RedisError, w') else (Ok tt, w').

(** [SELECT * FROM products WHERE id = $1] *)
Definition select_product_rows (id : Z) (ps : list product) : list product :=
  filter (λ p, product_id p = id) ps.

Definition pool_select_product {json} (id : Z) : M json (list product) :=
  let* _ := pg_await in
  get (λ w, select_product_rows id (products (committed (pg w)))).

(** *** [app.get('/api/products/:id')]

    [id] is the parameter of the path as PostgreSQL reads it; a text it
    cannot read as an integer is a fault of the store. *)

Definition get_product {json} (id : Z) : M json answer :=
  try_catch
    (let* rows := pool_select_product id in
     match rows with
     | [] => ret (Answer 404 (ErrorAnswer "Product not found"))
     | p :: _ => ret (Answer 200 (ProductBody p))
     end)
    (λ error, ret (Answer 500 (ErrorAnswer "Internal server error"))).

(** *** [app.get('/ready')] *)

Definition get_ready {json} : M json answer :=
  try_catch
    (let* _ := pg_await in       (* [pool.query('SELECT 1')] *)
     let* _ := redis_await in    (* [redisClient.ping()] *)
     ret (Answer 200 ReadyBody))
    (λ error, ret (Answer 503 (NotReadyBody error))).

(** *** [initDB]

    One [pool.query] with several statements.  The tables of the model are
    always there, so [CREATE TABLE IF NOT EXISTS] leaves them as they are.
    The [INSERT] draws an identifier from the sequence of [products] for
    each row, [seq] being the value of the sequence before the query, and
    stamps the rows with the time of the query; [ON CONFLICT DO NOTHING]
    skips a row whose identifier is taken. *)
Definition seed_products (seq t : Z) : list product :=
  [ Product (seq + 1) "Laptop Pro" "High-performance laptop" 129999 50
            "https://via.placeholder.com/300?text=Laptop" t;
    Product (seq + 2) "Wireless Mouse" "Ergonomic wireless mouse" 2999 200
            "https://via.placeholder.com/300?text=Mouse" t;
    Product (seq + 3) "Mechanical Keyboard" "RGB mechanical keyboard" 8999 100
            "https://via.placeholder.com/300?text=Keyboard" t;
    Product (seq + 4) "4K Monitor" "27-inch 4K display" 39999 75
            "https://via.placeholder.com/300?text=Monitor" t ].

Definition insert_do_nothing (ps : list product) (p : product) : list product :=
  if existsb (λ q, product_id q =? product_id p) ps then ps else ps ++ [p].

Definition insert_seed_rows (seq t : Z) (c : tables) : tables :=
  Tables (foldl insert_do_nothing (products c) (seed_products seq t))
         (orders c) (order_items c).

(** A write of [pool.query], on a connection of its own: at once on the
    committed tables. *)
Definition pool_write (f : tables → tables) (s : pgstate) : pgstate :=
  PgState (f (committed s)) (tx s) (orders_id_seq s) (order_items_id_seq s).

Definition initDB {json} (seq : Z) : M json unit :=
  try_catch
    (let* _ := pg_await in
     modify (λ w, set_pg (pool_write (insert_seed_rows seq (now w))) w))
    (λ error, ret tt).

(** Does a read of the listing in [w] get through: a lookup that answers
    and then either an entry [JSON.parse] reads, or no entry and a store
    and a fill that answer. *)
Definition listing_gets_through {json} (JSON_parse : string → option json)
    (w : world json) : Prop :=
  fails_at (redis_faults w) 0 = false ∧
  match truthy (cache_read (redis w) (now w) "products") with
  | Some text => is_Some (JSON_parse text)
  | None => fails_at (pg_faults w) 0 = false ∧ fails_at (redis_faults w) 1 = false
  end.

(** ** Bookkeeping of the store *)

(** Identifiers of [orders] and of [order_items] were drawn from their
    sequences, each one once. *)
Definition ids_from_sequences (s : pgstate) : Prop :=
  Forall (λ o, order_id o ≤ orders_id_seq s) (orders (committed s)) ∧
  Forall (λ r, order_item_id r ≤ order_items_id_seq s) (order_items (committed s)) ∧
  NoDup (order_id <$> orders (committed s)) ∧
  NoDup (order_item_id <$> order_items (committed s)).

(** The foreign keys of [order_items]: every row names an order of
    [orders] and a product of [products]. *)
Definition references_hold (c : tables) : Prop :=
  Forall (λ r,
      (∃ o, o ∈ orders c ∧ order_id o = order_item_order_id r) ∧
      (∃ p, p ∈ products c ∧ product_id p = order_item_product_id r))
    (order_items c).

(** The number in [total] once the rows of the order [oid] were added to
    it, in the order of the table: each a price read as a number times a
    quantity. *)
Definition rows_running_total (total : number) (rows : list order_item) (oid : Z) : number :=
  foldl (λ acc r,
           if order_item_order_id r =? oid
           then js_add acc (line_amount (order_item_price r) (order_item_quantity r))
           else acc)
        total rows.

(** The number the rows of the order [oid] give, added to 0. *)
Definition order_lines_total (rows : list order_item) (oid : Z) : number :=
  rows_running_total (Number_of_Z 0) rows oid.

(** The total of every order is what the store keeps of the number its rows
    give. *)
Definition totals_add_up (c : tables) : Prop :=
  Forall (λ o, order_total o =
               decimal_of_number (order_lines_total (order_items c) (order_id o)))
    (orders c).

(** From [w] to [w']: the sequences have not gone back, and the plan of
    the store has lost the entries of the calls made. *)
Definition advances {json} (w w' : world json) : Prop :=
  orders_id_seq (pg w) ≤ orders_id_seq (pg w') ∧
  order_items_id_seq (pg w) ≤ order_items_id_seq (pg w') ∧
  ∃ n : nat, pg_faults w' = drop n (pg_faults w).

(** Every run of [m] advances the world. *)
Definition steps {json A} (m : M json A) : Prop :=
  ∀ w, advances w (m w).2.

(** A catalog with a keyboard that is out of stock. *)
Definition sold_out : world string :=
  World (PgState (Tables [ Product 1 "Laptop Pro" "High-performance laptop" 129999 50 "Laptop" 0;
                           Product 3 "Mechanical Keyboard" "RGB mechanical keyboard" 8999 0
                                     "Keyboard" 0 ] [] [])
                 None 0 0)
        ∅ 1000 [] [] [] None.

(** The seeded store with one order in it, for three mice. *)
Definition one_order : world string :=
  World (PgState (Tables seeded [Order 1 7 "pending" 8997 900] [OrderItem 1 1 2 3 2999])
                 None 1 1)
        ∅ 1000 [] [] [] None.

(** A store that is down: its next call throws. *)
Definition store_down : world string :=
  World (PgState (Tables seeded [] []) None 0 0) ∅ 1000 [true] [] [] None.

(** * Properties *)

(** Unfolds the updates of the world and computes its fields. *)
Ltac world_simpl :=
  unfold order_placed, order_placed_reported_failed, pg_with_order, tables_with_order,
    order_calls, lines_added, pg_called, redis_called, res_json, modify,
    set_pg, set_redis, set_res, set_pg_faults, set_redis_faults, log;
  cbn.

(** ** The listing query *)

Lemma insert_newest_first_perm p ps :
  insert_newest_first p ps ≡ₚ p :: ps.
Proof.
  induction ps as [|q qs IH]; simpl; [done|].
  destruct (product_created_at q <=? product_created_at p); [done|].
  rewrite IH. apply Permutation_swap.
Qed.

Lemma order_by_created_at_desc_perm ps :
  order_by_created_at_desc ps ≡ₚ ps.
Proof.
  induction ps as [|p ps IH]; simpl; [done|].
  rewrite insert_newest_first_perm. by rewrite IH.
Qed.

Lemma insert_newest_first_hd p q ps :
  product_created_at p ≤ product_created_at q →
  HdRel (λ a b, product_created_at b ≤ product_created_at a) q ps →
  HdRel (λ a b, product_created_at b ≤ product_created_at a) q (insert_newest_first p ps).
Proof.
  intros Hpq Hq. destruct ps as [|r rs]; simpl.
  - by constructor.
  - destruct (product_created_at r <=? product_created_at p); constructor; [done|].
    by inversion Hq.
Qed.

Lemma insert_newest_first_sorted p ps :
  newest_first ps → newest_first (insert_newest_first p ps).
Proof.
  unfold newest_first. induction 1 as [|q qs Hs IH Hhd]; simpl.
  - repeat constructor.
  - destruct (product_created_at q <=? product_created_at p) eqn:E.
    + apply Z.leb_le in E. constructor; [by constructor|by constructor].
    + apply Z.leb_gt in E. constructor; [done|].
      apply insert_newest_first_hd; [lia|done].
Qed.

Lemma order_by_created_at_desc_sorted ps :
  newest_first (order_by_created_at_desc ps).
Proof.
  induction ps as [|p ps IH]; simpl.
  - constructor.
  - by apply insert_newest_first_sorted.
Qed.

Lemma select_in_stock_rows_perm ps :
  select_in_stock_rows ps ≡ₚ filter (λ p, 0 < product_stock p) ps.
Proof. apply order_by_created_at_desc_perm. Qed.

Lemma select_in_stock_rows_elem ps p :
  p ∈ select_in_stock_rows ps ↔ p ∈ ps ∧ 0 < product_stock p.
Proof.
  rewrite select_in_stock_rows_perm, list_elem_of_filter. tauto.
Qed.

(** ** Fault plans *)

Lemma next_fault_fails_at plan :
  next_fault plan = (fails_at plan 0, tail plan).
Proof. by destruct plan. Qed.

Lemma fails_at_tail plan n :
  fails_at (tail plan) n = fails_at plan (S n).
Proof. destruct plan; [by destruct n|done]. Qed.

Lemma healthy_fails_at plan n :
  healthy plan = true → fails_at plan n = false.
Proof.
  unfold healthy, fails_at. revert n.
  induction plan as [|b plan IH]; intros n H; [by destruct n|].
  simpl in H. apply andb_prop in H as [Hb H].
  destruct n; simpl; [by destruct b|by apply IH].
Qed.

Lemma healthy_tail plan :
  healthy plan = true → healthy (tail plan) = true.
Proof.
  destruct plan as [|b plan]; [done|]. simpl.
  intros H. by apply andb_prop in H as [_ H].
Qed.

(** ** Numbers

    Rounding keeps the sign: sums and products of numbers that are not
    below zero are not below zero, and so is what the store keeps of
    them. *)

Lemma binary_round_aux_sign m e l :
  not_below_zero (binary_round_aux 53 1024 false m e l) = true.
Proof.
  unfold binary_round_aux.
  destruct (shr_fexp 53 1024 m e l) as [mrs' e'].
  destruct (shr_fexp 53 1024 _ e' loc_Exact) as [mrs'' e''].
  destruct (shr_m mrs''); [done| |done]. by destruct (_ <=? _).
Qed.

Lemma binary_round_sign m e :
  not_below_zero (binary_round 53 1024 false m e) = true.
Proof.
  unfold binary_round. destruct (shl_align _ _ _). apply binary_round_aux_sign.
Qed.

Lemma Number_of_Z_sign z : 0 ≤ z → not_below_zero (Number_of_Z z) = true.
Proof.
  intros Hz. destruct z; [done| |lia]. apply binary_round_sign.
Qed.

Lemma Number_of_decimal_sign p : 0 ≤ p → not_below_zero (Number_of_decimal p) = true.
Proof.
  intros Hp. pose proof (Number_of_Z_sign p Hp) as H.
  unfold Number_of_decimal.
  change (Number_of_Z 100) with (S754_finite false 7036874417766400 (-46)).
  destruct (Number_of_Z p) as [[]|[]| |[] m e]; try done.
  unfold SFdiv.
  destruct (SFdiv_core_binary _ _ _ _ _ _) as [[mz ez] lz].
  apply binary_round_aux_sign.
Qed.

Lemma js_mul_sign x y :
  not_below_zero x = true → not_below_zero y = true →
  not_below_zero (js_mul x y) = true.
Proof.
  destruct x as [sx|[]| |[] mx ex], y as [sy|[]| |[] my ey]; simpl; try done.
  intros _ _. apply binary_round_aux_sign.
Qed.

Lemma js_add_sign x y :
  not_below_zero x = true → not_below_zero y = true →
  not_below_zero (js_add x y) = true.
Proof.
  destruct x as [sx|[]| |[] mx ex], y as [sy|[]| |[] my ey]; simpl; try done.
  - by destruct sx, sy.
  - intros _ _. unfold binary_normalize, cond_Zopp.
    destruct (shl_align mx ex _), (shl_align my ey _). simpl.
    apply binary_round_sign.
Qed.

Lemma thousandths_nonneg m e : 0 ≤ thousandths m e.
Proof.
  unfold thousandths. destruct (Z.leb_spec 0 e).
  - apply Z.mul_nonneg_nonneg; [lia|]. by apply Z.pow_nonneg.
  - apply Z.div_pos; [lia|]. apply Z.pow_pos_nonneg; lia.
Qed.

Lemma decimal_of_number_nonneg x :
  not_below_zero x = true → 0 ≤ decimal_of_number x.
Proof.
  destruct x as [s|s| |[] m e]; simpl; try done.
  intros _. pose proof (thousandths_nonneg m e).
  case_match; apply Z.div_pos; lia.
Qed.

Lemma line_amount_sign price quantity :
  0 ≤ price → 0 ≤ quantity → not_below_zero (line_amount price quantity) = true.
Proof.
  intros Hp Hq. apply js_mul_sign; [by apply Number_of_decimal_sign|by apply Number_of_Z_sign].
Qed.

Section Properties.

Context {json : Type}.
Variable JSON_parse : string → option json.
Variable JSON_stringify : list product → string.

Implicit Types (w : world json) (its : list item).

Local Arguments fails_at : simpl never.
Local Arguments select_in_stock_rows : simpl never.
Local Arguments cache_read : simpl never.
Local Arguments tables_with_order : simpl never.

(** ** Calls *)

Lemma pg_call_run e w :
  pg_call e w =
  (if fails_at (pg_faults w) 0 then Throw PgError else Ok tt, pg_called e w).
Proof.
  unfold pg_call. rewrite next_fault_fails_at.
  by destruct (fails_at (pg_faults w) 0).
Qed.

Lemma redis_call_run e w :
  redis_call e w =
  (if fails_at (redis_faults w) 0 then Throw RedisError else Ok tt,
   redis_called e w).
Proof.
  unfold redis_call. rewrite next_fault_fails_at.
  by destruct (fails_at (redis_faults w) 0).
Qed.

(** ** [GET /api/products] *)

(** The run of a read that misses, call by call. *)
Lemma miss_run w :
  truthy (cache_read (redis w) (now w) "products") = None →
  fails_at (redis_faults w) 0 = false →
  fails_at (pg_faults w) 0 = false →
  fails_at (redis_faults w) 1 = false →
  let rows := select_in_stock_rows (products (committed (pg w))) in
  get_products JSON_parse JSON_stringify w =
  (Ok tt,
   World (pg w)
         (<["products" := (JSON_stringify rows, now w + 300)]> (redis w))
         (now w)
         (tail (pg_faults w))
         (tail (tail (redis_faults w)))
         (trace w ++ [EvRedisGet "products";
                      EvPoolQuery SqlSelectInStock;
                      EvRedisSetEx "products" 300 (JSON_stringify rows)])
         (Some (Response 200 (Rows rows)))).
Proof.
  intros Hmiss Hget Hq Hset rows.
  unfold get_products, try_catch, redis_get, pool_select_in_stock, redis_setEx,
    res_json, bind, get, modify.
  rewrite redis_call_run, Hget. cbn. rewrite Hmiss.
  rewrite pg_call_run. cbn. rewrite Hq.
  rewrite redis_call_run. cbn. rewrite fails_at_tail, Hset. cbn.
  unfold set_res, set_redis. cbn. by rewrite <- !app_assoc.
Qed.

(** C5. A read that misses the cache (no entry, an expired one or an
    empty text under the key), with the cache and the store answering,
    sends exactly three calls: the lookup, the query of the store and the
    fill.  The rows are exactly the products with [stock > 0], newest first;
    their text is stored under ["products"] to expire 300 seconds later;
    they are the body of the 200 response.  The store is left as it was. *)
Theorem get_products_miss w :
  truthy (cache_read (redis w) (now w) "products") = None →
  fails_at (redis_faults w) 0 = false →
  fails_at (pg_faults w) 0 = false →
  fails_at (redis_faults w) 1 = false →
  let rows := select_in_stock_rows (products (committed (pg w))) in
  let w' := (get_products JSON_parse JSON_stringify w).2 in
  (∀ p, p ∈ rows ↔ p ∈ products (committed (pg w)) ∧ 0 < product_stock p) ∧
  rows ≡ₚ filter (λ p, 0 < product_stock p) (products (committed (pg w))) ∧
  newest_first rows ∧
  trace w' = trace w ++ [EvRedisGet "products";
                         EvPoolQuery SqlSelectInStock;
                         EvRedisSetEx "products" 300 (JSON_stringify rows)] ∧
  redis w' = <["products" := (JSON_stringify rows, now w + 300)]> (redis w) ∧
  res w' = Some (Response 200 (Rows rows)) ∧
  pg w' = pg w.
Proof.
  intros Hmiss Hget Hq Hset rows w'.
  split; [intros p; apply select_in_stock_rows_elem|].
  split; [apply select_in_stock_rows_perm|].
  split; [apply order_by_created_at_desc_sorted|].
  subst w'. by rewrite miss_run.
Qed.

(** The run of a read that hits. *)
Lemma hit_run w text v :
  cache_read (redis w) (now w) "products" = Some text →
  text ≠ EmptyString →
  fails_at (redis_faults w) 0 = false →
  JSON_parse text = Some v →
  get_products JSON_parse JSON_stringify w =
  (Ok tt,
   World (pg w) (redis w) (now w) (pg_faults w) (tail (redis_faults w))
         (trace w ++ [EvRedisGet "products"])
         (Some (Response 200 (Parsed v)))).
Proof.
  intros Hread Htext Hget Hparse.
  unfold get_products, try_catch, redis_get, res_json, bind, get, modify.
  rewrite redis_call_run, Hget. cbn. rewrite Hread. cbn.
  destruct (String.eqb_spec text EmptyString) as [->|_]; [done|].
  by rewrite Hparse.
Qed.

Lemma cache_read_fresh (c : gmap string (string * Z)) t key text expires :
  c !! key = Some (text, expires) → t < expires →
  cache_read c t key = Some text.
Proof.
  intros Hc Ht. unfold cache_read. rewrite Hc.
  by destruct (Z.ltb_spec t expires); [|lia].
Qed.

(** C6. A read that hits the cache (an entry under the key that has not
    expired, holding a text that [JSON.parse] reads as [v]) answers 200
    with [v], after a single call, the lookup: no query is sent to the
    store, whatever the store [s] holds by then, and the cache is left as
    it was. *)
Theorem get_products_hit w text expires v (s : pgstate) :
  redis w !! "products" = Some (text, expires) →
  now w < expires →
  text ≠ EmptyString →
  fails_at (redis_faults w) 0 = false →
  JSON_parse text = Some v →
  let w' := (get_products JSON_parse JSON_stringify (set_pg (λ _, s) w)).2 in
  res w' = Some (Response 200 (Parsed v)) ∧
  trace w' = trace w ++ [EvRedisGet "products"] ∧
  pg w' = s ∧
  redis w' = redis w.
Proof.
  intros Hentry Hnow Htext Hget Hparse w'. subst w'.
  rewrite (hit_run _ text v); cbn; try done.
  by apply cache_read_fresh with expires.
Qed.

(** A read that missed followed by a read before the 300 seconds are
    over: the second one returns what the first one cached, whatever
    became of the store in between. *)
Lemma miss_then_hit w (s : pgstate) (t : Z) v :
  truthy (cache_read (redis w) (now w) "products") = None →
  fails_at (redis_faults w) 0 = false →
  fails_at (pg_faults w) 0 = false →
  fails_at (redis_faults w) 1 = false →
  let rows := select_in_stock_rows (products (committed (pg w))) in
  JSON_stringify rows ≠ EmptyString →
  JSON_parse (JSON_stringify rows) = Some v →
  t < now w + 300 →
  let w1 := (get_products JSON_parse JSON_stringify w).2 in
  let w2 := World s (redis w1) t [] [] [] None in
  get_products JSON_parse JSON_stringify w2 =
  (Ok tt, World s (redis w1) t [] [] [EvRedisGet "products"]
                (Some (Response 200 (Parsed v)))).
Proof.
  intros Hmiss Hget Hq Hset rows Hne Hparse Ht w1 w2.
  subst w1 w2. rewrite (miss_run w) by done. cbn.
  rewrite (hit_run _ (JSON_stringify rows) v); try done.
  cbn. apply cache_read_fresh with (now w + 300); [|done].
  apply lookup_insert_eq.
Qed.

(** The run of a read whose lookup throws. *)
Lemma get_fails_run w :
  fails_at (redis_faults w) 0 = true →
  get_products JSON_parse JSON_stringify w =
  (Ok tt,
   World (pg w) (redis w) (now w) (pg_faults w) (tail (redis_faults w))
         (trace w ++ [EvRedisGet "products"])
         (Some (Response 500 (ErrorBody "Internal server error")))).
Proof.
  intros Hget.
  unfold get_products, try_catch, redis_get, res_json, bind, get, modify.
  by rewrite redis_call_run, Hget.
Qed.

(** The run of a read that misses and whose fill throws. *)
Lemma set_fails_run w :
  truthy (cache_read (redis w) (now w) "products") = None →
  fails_at (redis_faults w) 0 = false →
  fails_at (pg_faults w) 0 = false →
  fails_at (redis_faults w) 1 = true →
  let rows := select_in_stock_rows (products (committed (pg w))) in
  get_products JSON_parse JSON_stringify w =
  (Ok tt,
   World (pg w) (redis w) (now w) (tail (pg_faults w))
         (tail (tail (redis_faults w)))
         (trace w ++ [EvRedisGet "products";
                      EvPoolQuery SqlSelectInStock;
                      EvRedisSetEx "products" 300 (JSON_stringify rows)])
         (Some (Response 500 (ErrorBody "Internal server error")))).
Proof.
  intros Hmiss Hget Hq Hset rows.
  unfold get_products, try_catch, redis_get, pool_select_in_stock, redis_setEx,
    res_json, bind, get, modify.
  rewrite redis_call_run, Hget. cbn. rewrite Hmiss.
  rewrite pg_call_run. cbn. rewrite Hq.
  rewrite redis_call_run. cbn. rewrite fails_at_tail, Hset. cbn.
  unfold set_res. cbn. by rewrite <- !app_assoc.
Qed.

(** C4, as the handler has it.  A read during which a call to the cache
    throws (the lookup, or the fill after a miss and a query that went
    through) fails: the answer is 500 with [{ error: 'Internal server
    error' }], never the rows of the store.  When the lookup throws the
    store is not even queried; when the fill throws the rows just read are
    dropped.  Store and cache are left as they were. *)
Theorem get_products_cache_unavailable w :
  fails_at (redis_faults w) 0 = true ∨
  (fails_at (redis_faults w) 0 = false ∧
   truthy (cache_read (redis w) (now w) "products") = None ∧
   fails_at (pg_faults w) 0 = false ∧
   fails_at (redis_faults w) 1 = true) →
  let rows := select_in_stock_rows (products (committed (pg w))) in
  let w' := (get_products JSON_parse JSON_stringify w).2 in
  res w' = Some (Response 500 (ErrorBody "Internal server error")) ∧
  trace w' = trace w ++
    (if fails_at (redis_faults w) 0
     then [EvRedisGet "products"]
     else [EvRedisGet "products"; EvPoolQuery SqlSelectInStock;
           EvRedisSetEx "products" 300 (JSON_stringify rows)]) ∧
  pg w' = pg w ∧
  redis w' = redis w.
Proof.
  intros [Hget|(Hget & Hmiss & Hq & Hset)] rows w'; subst w'.
  - rewrite get_fails_run by done. by rewrite Hget.
  - rewrite set_fails_run by done. by rewrite Hget.
Qed.

(** ** [POST /api/orders]: the statements *)

Lemma client_begin_run w :
  client_begin w =
  if fails_at (pg_faults w) 0
  then (Throw PgError, pg_called (EvClientQuery SqlBegin) w)
  else (Ok tt, set_pg pg_begin (pg_called (EvClientQuery SqlBegin) w)).
Proof.
  unfold client_begin, bind. rewrite pg_call_run.
  by destruct (fails_at (pg_faults w) 0).
Qed.

Lemma client_commit_run w :
  client_commit w =
  if fails_at (pg_faults w) 0
  then (Throw PgError, pg_called (EvClientQuery SqlCommit) w)
  else (Ok tt, set_pg pg_commit (pg_called (EvClientQuery SqlCommit) w)).
Proof.
  unfold client_commit, bind. rewrite pg_call_run.
  by destruct (fails_at (pg_faults w) 0).
Qed.

Lemma client_rollback_run w :
  client_rollback w =
  if fails_at (pg_faults w) 0
  then (Throw PgError, pg_called (EvClientQuery SqlRollback) w)
  else (Ok tt, set_pg pg_rollback (pg_called (EvClientQuery SqlRollback) w)).
Proof.
  unfold client_rollback, bind. rewrite pg_call_run.
  by destruct (fails_at (pg_faults w) 0).
Qed.

Lemma client_insert_order_run user st total w :
  let e := EvClientQuery (SqlInsertOrder user st total) in
  let row := Order (orders_id_seq (pg w) + 1) user st total (now w) in
  client_insert_order user st total w =
  if fails_at (pg_faults w) 0
  then (Throw PgError, pg_called e w)
  else (Ok row,
        set_pg (λ s, write (insert_order_row row) (next_orders_id s)) (pg_called e w)).
Proof.
  intros e row. unfold client_insert_order, bind. rewrite pg_call_run.
  by destruct (fails_at (pg_faults w) 0).
Qed.

Lemma client_select_price_run id w :
  client_select_price id w =
  (if fails_at (pg_faults w) 0
   then Throw PgError
   else Ok (select_price_rows id (products (view (pg w)))),
   pg_called (EvClientQuery (SqlSelectPrice id)) w).
Proof.
  unfold client_select_price, bind. rewrite pg_call_run.
  by destruct (fails_at (pg_faults w) 0).
Qed.

Lemma client_insert_order_item_run oid pid quantity price w :
  let e := EvClientQuery (SqlInsertOrderItem oid pid quantity price) in
  let row := OrderItem (order_items_id_seq (pg w) + 1) oid pid quantity price in
  client_insert_order_item oid pid quantity price w =
  if fails_at (pg_faults w) 0
  then (Throw PgError, pg_called e w)
  else (Ok tt,
        set_pg (λ s, write (insert_order_item_row row) (next_order_items_id s))
               (pg_called e w)).
Proof.
  intros e row. unfold client_insert_order_item, bind. rewrite pg_call_run.
  by destruct (fails_at (pg_faults w) 0).
Qed.

Lemma client_update_order_total_run total oid w :
  let e := EvClientQuery (SqlUpdateOrderTotal total oid) in
  client_update_order_total total oid w =
  if fails_at (pg_faults w) 0
  then (Throw PgError, pg_called e w)
  else (Ok tt, set_pg (write (update_order_total_rows (decimal_of_number total) oid))
                      (pg_called e w)).
Proof.
  intros e. unfold client_update_order_total, bind. rewrite pg_call_run.
  by destruct (fails_at (pg_faults w) 0).
Qed.

Lemma redis_del_run key w :
  redis_del key w =
  if fails_at (redis_faults w) 0
  then (Throw RedisError, redis_called (EvRedisDel key) w)
  else (Ok tt, set_redis (delete key) (redis_called (EvRedisDel key) w)).
Proof.
  unfold redis_del, bind. rewrite redis_call_run.
  by destruct (fails_at (redis_faults w) 0).
Qed.

(** ** [POST /api/orders]: the loop over the lines *)

Lemma drop_tail_tail {A} n (l : list A) :
  drop n (tail (tail l)) = drop (2 + n) l.
Proof. destruct l as [|a [|b l]]; simpl; by rewrite ?drop_nil. Qed.

(** When the loop comes to its end, every line named a product of the
    catalog, the total is the running total of the lines, and the world is
    [lines_added]. *)
Lemma add_order_items_ok oid its :
  ∀ total w t total' w',
    tx (pg w) = Some t →
    add_order_items oid its total w = (Ok total', w') →
    Forall (product_exists (products t)) its ∧
    total' = running_total (products t) total its ∧
    w' = lines_added t oid its w.
Proof.
  induction its as [|it rest IH]; intros total w t total' w' Htx Hrun.
  - simpl in Hrun. injection Hrun as <- <-.
    split; [constructor|]. split; [done|].
    unfold lines_added. destruct w as [[c ? oseq iseq] ? ? ? ? ? ?], t.
    simpl in *. subst. by rewrite Z.add_0_r, !app_nil_r.
  - simpl in Hrun. unfold bind in Hrun at 1.
    rewrite client_select_price_run in Hrun.
    destruct (fails_at (pg_faults w) 0) eqn:Hf1; [done|].
    unfold view in Hrun. rewrite Htx in Hrun.
    destruct (select_price_rows (item_product_id it) (products t))
      as [|price rows] eqn:Hrows; [done|].
    unfold bind in Hrun at 1.
    rewrite client_insert_order_item_run in Hrun. cbn in Hrun.
    rewrite fails_at_tail in Hrun.
    destruct (fails_at (pg_faults w) 1) eqn:Hf2; [done|].
    set (row := OrderItem (order_items_id_seq (pg w) + 1) oid (item_product_id it)
                          (item_quantity it) price) in *.
    apply (IH _ _ (insert_order_item_row row t)) in Hrun as (Hall & -> & ->);
      [|cbn; unfold write; cbn; by rewrite Htx].
    assert (Hprice : price_of (products t) (item_product_id it) = Some price)
      by (unfold price_of; by rewrite Hrows).
    split; [constructor; [by eexists|done]|].
    split; [simpl; by rewrite Hprice|].
    unfold lines_added. cbn. unfold write. cbn. rewrite Htx. cbn.
    rewrite Hprice, drop_tail_tail, <- !app_assoc. cbn.
    f_equal; [f_equal; lia|f_equal; lia].
Qed.

(** With a store that answers and lines that all name a product of the
    catalog, the loop comes to its end. *)
Lemma add_order_items_total oid its :
  ∀ total w t,
    tx (pg w) = Some t →
    healthy (pg_faults w) = true →
    Forall (product_exists (products t)) its →
    ∃ total' w', add_order_items oid its total w = (Ok total', w').
Proof.
  induction its as [|it rest IH]; intros total w t Htx Hok Hall.
  - by eexists _, _.
  - inversion Hall as [|? ? [price Hprice] Hrest]; subst.
    simpl. unfold bind at 1. rewrite client_select_price_run.
    rewrite (healthy_fails_at _ 0 Hok). unfold view. rewrite Htx.
    unfold price_of in Hprice.
    destruct (select_price_rows (item_product_id it) (products t))
      as [|price' rows]; [done|].
    unfold bind at 1. rewrite client_insert_order_item_run. cbn.
    rewrite fails_at_tail, (healthy_fails_at _ 1 Hok).
    eapply IH; cbn.
    + unfold write. cbn. by rewrite Htx.
    + by do 2 apply healthy_tail.
    + done.
Qed.

Lemma add_order_items_run oid its total w t :
  tx (pg w) = Some t →
  healthy (pg_faults w) = true →
  Forall (product_exists (products t)) its →
  add_order_items oid its total w =
  (Ok (running_total (products t) total its), lines_added t oid its w).
Proof.
  intros Htx Hok Hall.
  destruct (add_order_items_total oid its total w t Htx Hok Hall)
    as (total' & w' & Hrun).
  rewrite Hrun.
  by apply add_order_items_ok with (t := t) in Hrun as (_ & -> & ->).
Qed.

(** Whatever the plan, the loop stays inside the transaction. *)
Lemma add_order_items_frame oid its w0 :
  ∀ total w,
    in_transaction w0 w →
    in_transaction w0 (add_order_items oid its total w).2.
Proof.
  induction its as [|it rest IH]; intros total w Hin; [done|].
  simpl. unfold bind at 1. rewrite client_select_price_run.
  assert (Hsel : in_transaction w0
            (pg_called (EvClientQuery (SqlSelectPrice (item_product_id it))) w))
    by done.
  destruct (fails_at (pg_faults w) 0); [done|].
  destruct (select_price_rows _ _) as [|price rows]; [done|].
  unfold bind at 1. rewrite client_insert_order_item_run. cbn zeta.
  destruct (fails_at _ 0); [done|].
  apply IH. destruct Hsel as (Hc & [t Htx] & Hr & Hres).
  cbn in Htx. unfold in_transaction. cbn. unfold write. cbn.
  rewrite Htx. cbn. by eauto.
Qed.

(** ** [POST /api/orders]: the handler *)

Lemma tail_drop {A} (l : list A) : tail l = drop 1 l.
Proof. by destruct l. Qed.

Lemma fails_at_drop plan n k :
  fails_at (drop n plan) k = fails_at plan (n + k).
Proof. unfold fails_at. by rewrite lookup_drop. Qed.

(** The run with a store that answers and lines that all name a product
    of the catalog: the order is committed; what follows depends on the
    invalidation of the listing. *)
Lemma healthy_run user its w :
  tx (pg w) = None →
  healthy (pg_faults w) = true →
  Forall (product_exists (products (committed (pg w)))) its →
  post_orders (OrderRequest user (Some its)) w =
  (Ok tt,
   if fails_at (redis_faults w) 0
   then order_placed_reported_failed user its w
   else order_placed user its w).
Proof.
  intros Htx Hok Hall.
  destruct w as [[c txw oseq iseq] r t pf rf tr rs]. simpl in *. subst txw.
  unfold post_orders, bind at 1, pool_connect. rewrite pg_call_run. world_simpl.
  rewrite (healthy_fails_at _ 0 Hok).
  unfold try_finally, try_catch, create_order, bind at 1.
  rewrite client_begin_run. world_simpl.
  rewrite fails_at_tail, (healthy_fails_at _ 1 Hok).
  unfold bind at 1. rewrite client_insert_order_run. world_simpl.
  rewrite !fails_at_tail, (healthy_fails_at _ 2 Hok).
  unfold bind at 1, for_of_items. world_simpl.
  erewrite add_order_items_run; [|cbn; reflexivity|cbn; by do 3 apply healthy_tail|done].
  unfold bind at 1. rewrite client_update_order_total_run. world_simpl.
  rewrite fails_at_drop, !fails_at_tail, (healthy_fails_at _ _ Hok).
  unfold bind at 1. rewrite client_commit_run. world_simpl.
  rewrite !fails_at_tail, fails_at_drop, !fails_at_tail, (healthy_fails_at _ _ Hok).
  unfold bind at 1. rewrite redis_del_run. world_simpl.
  destruct (fails_at rf 0).
  - unfold order_failed, bind. rewrite client_rollback_run. world_simpl.
    rewrite !fails_at_tail, fails_at_drop, !fails_at_tail, (healthy_fails_at _ _ Hok).
    unfold client_release. world_simpl.
    rewrite !tail_drop, !drop_drop, <- !app_assoc. cbn.
    do 2 f_equal. f_equal. lia.
  - unfold client_release. world_simpl.
    rewrite !tail_drop, !drop_drop, <- !app_assoc. cbn.
    do 2 f_equal. f_equal. lia.
Qed.

(** The [catch] block changes neither the committed tables nor the cache,
    and answers 500 unless its [ROLLBACK] throws. *)
Lemma order_failed_frame e w :
  let w' := (order_failed e w).2 in
  committed (pg w') = committed (pg w) ∧
  tx (pg w') = (if fails_at (pg_faults w) 0 then tx (pg w) else None) ∧
  orders_id_seq (pg w') = orders_id_seq (pg w) ∧
  order_items_id_seq (pg w') = order_items_id_seq (pg w) ∧
  redis w' = redis w ∧
  (res w' = res w ∨
   res w' = Some (Response 500 (ErrorBody "Failed to create order"))).
Proof.
  unfold order_failed, bind. rewrite client_rollback_run.
  destruct (fails_at (pg_faults w) 0); world_simpl; by eauto 10.
Qed.

Lemma order_failed_aborted req e w w1 :
  committed (pg w1) = committed (pg w) →
  redis w1 = redis w →
  res w1 = res w →
  post_orders_outcome req w
    (let (r, w') := order_failed e w1 in (r, client_release w')).2.
Proof.
  intros Hc Hr Hres.
  destruct (order_failed_frame e w1) as (Hc' & _ & _ & _ & Hr' & Hres').
  destruct (order_failed e w1) as [r' w']. cbn in *.
  apply NothingPersisted; cbn; [congruence..|].
  destruct Hres' as [->| ->]; by eauto.
Qed.

(** Whatever the request and whatever the plans, a run of [post_orders]
    on an idle connection goes one of the three ways. *)
Lemma order_cases req w :
  tx (pg w) = None →
  post_orders_outcome req w (post_orders req w).2.
Proof.
  intros Htx. destruct req as [user its].
  destruct w as [[c txw oseq iseq] r t pf rf tr rs]. simpl in *. subst txw.
  unfold post_orders, bind at 1, pool_connect. rewrite pg_call_run. world_simpl.
  destruct (fails_at pf 0); [by apply NothingPersisted; eauto|].
  unfold try_finally, try_catch, create_order, bind at 1.
  rewrite client_begin_run. world_simpl.
  destruct (fails_at _ 0); [by apply order_failed_aborted|].
  unfold bind at 1. rewrite client_insert_order_run. world_simpl.
  destruct (fails_at _ 0); [by apply order_failed_aborted|].
  unfold bind at 1. destruct its as [its|]; [|by apply order_failed_aborted].
  unfold for_of_items. world_simpl.
  match goal with
  | |- context [add_order_items ?o ?i ?z ?w] =>
    set (w1 := w);
    pose proof (add_order_items_frame o i w1 z w1) as Hframe;
    pose proof (add_order_items_ok o i z w1 (insert_order_row
                  (Order (oseq + 1) user "pending" 0 t) c)) as Hok;
    destruct (add_order_items o i z w1) as [[total|e] w2]
  end.
  - destruct (Hok total w2) as (Hall & -> & ->); [done..|]. clear Hok Hframe.
    subst w1. unfold bind at 1. rewrite client_update_order_total_run. world_simpl.
    destruct (fails_at _ 0); [by apply order_failed_aborted|].
    unfold bind at 1. rewrite client_commit_run. world_simpl.
    destruct (fails_at _ 0); [by apply order_failed_aborted|].
    unfold bind at 1. rewrite redis_del_run. world_simpl.
    destruct (fails_at rf 0) eqn:Hdel.
    + match goal with
      | |- context [order_failed ?e ?w] =>
        destruct (order_failed_frame e w) as (Hc & Htx & Ho & Hi & Hr & Hres);
        destruct (order_failed e w) as [r' w']
      end.
      cbn in *. apply PlacedReportedFailed with its; cbn; try done.
      destruct w' as [[c' tx' oseq' iseq'] ? ? ? ? ? ?]. cbn in *. subst.
      world_simpl. by case_match.
    + apply Placed with its; try done.
      unfold client_release. world_simpl.
      rewrite !tail_drop, !drop_drop, <- !app_assoc. cbn.
      f_equal. f_equal. lia.
  - clear Hok. destruct Hframe as (Hc & _ & Hr & Hres); [by subst w1; split; eauto|].
    by apply order_failed_aborted.
Qed.

(** ** [POST /api/orders]: the rows *)

Lemma set_total_other total oid (os : list order) :
  Forall (λ o, order_id o < oid) os →
  set_total total oid <$> os = os.
Proof.
  induction 1 as [|o os Ho _ IH]; [done|].
  rewrite fmap_cons, IH. f_equal. unfold set_total.
  by destruct (Z.eqb_spec (order_id o) oid); [lia|].
Qed.

Lemma tables_with_order_orders c oseq iseq t user its :
  Forall (λ o, order_id o ≤ oseq) (orders c) →
  orders (tables_with_order c oseq iseq t user its) =
  orders c ++ [Order (oseq + 1) user "pending"
                     (decimal_of_number (total_of_lines (products c) its)) t].
Proof.
  intros Hseq. unfold tables_with_order. simpl.
  rewrite fmap_app, set_total_other.
  - simpl. unfold set_total. simpl. by rewrite Z.eqb_refl.
  - eapply Forall_impl; [done|]. simpl. lia.
Qed.

Lemma order_item_rows_length ps oid seq its :
  length (order_item_rows ps oid seq its) = length its.
Proof.
  revert seq. induction its as [|it rest IH]; intros seq; simpl; [done|].
  by rewrite IH.
Qed.

(** The [i]-th row is the [i]-th line with the unit price of its product. *)
Lemma order_item_rows_lookup ps oid seq its (i : nat) it :
  its !! i = Some it →
  order_item_rows ps oid seq its !! i =
  Some (OrderItem (seq + Z.of_nat i + 1) oid (item_product_id it) (item_quantity it)
                  (default 0 (price_of ps (item_product_id it)))).
Proof.
  revert seq i. induction its as [|it' rest IH]; intros seq i Hi; [done|].
  destruct i as [|i]; simpl in *.
  - injection Hi as ->. do 2 f_equal. lia.
  - rewrite (IH _ _ Hi). do 2 f_equal. lia.
Qed.

Lemma order_item_rows_quantity ps oid seq its (P : Z → Prop) :
  Forall (λ it, P (item_quantity it)) its →
  Forall (λ r, P (order_item_quantity r)) (order_item_rows ps oid seq its).
Proof.
  intros H. revert seq.
  induction H as [|it rest Hit _ IH]; intros seq; simpl; constructor; [done|apply IH].
Qed.

Lemma price_of_elem ps id price :
  price_of ps id = Some price →
  ∃ p, p ∈ ps ∧ product_id p = id ∧ product_price p = price.
Proof.
  unfold price_of, select_price_rows. intros H.
  apply head_Some_elem_of, list_elem_of_fmap in H as (p & -> & Hp).
  apply list_elem_of_filter in Hp as [Hid Hp]. by exists p.
Qed.

(** The total of no line is 0, and a further line adds its amount to the
    total of the lines before it. *)
Lemma total_of_lines_nil ps : total_of_lines ps [] = Number_of_Z 0.
Proof. done. Qed.

Lemma total_of_lines_snoc ps its it :
  total_of_lines ps (its ++ [it]) =
  js_add (total_of_lines ps its)
         (line_amount (default 0 (price_of ps (item_product_id it))) (item_quantity it)).
Proof. unfold total_of_lines, running_total. by rewrite foldl_app. Qed.

Lemma running_total_sign ps its :
  Forall (λ p, 0 ≤ product_price p) ps →
  Forall (λ it, 0 < item_quantity it) its →
  ∀ total, not_below_zero total = true →
    not_below_zero (running_total ps total its) = true.
Proof.
  intros Hps. induction 1 as [|it rest Hit _ IH]; intros total Htotal; [done|].
  assert (0 ≤ default 0 (price_of ps (item_product_id it))).
  { destruct (price_of ps (item_product_id it)) as [price|] eqn:E; [|done].
    apply price_of_elem in E as (p & Hp & _ & <-).
    by eapply Forall_forall in Hps. }
  apply IH, js_add_sign; [done|]. apply line_amount_sign; lia.
Qed.

(** With prices and quantities that are not negative, the store keeps a
    total that is not negative. *)
Lemma total_of_lines_nonneg ps its :
  Forall (λ p, 0 ≤ product_price p) ps →
  Forall (λ it, 0 < item_quantity it) its →
  0 ≤ decimal_of_number (total_of_lines ps its).
Proof.
  intros Hps Hits. by apply decimal_of_number_nonneg, running_total_sign.
Qed.

(** ** [POST /api/orders]: the claims *)

(** C1, as the handler has it.  An order whose lines all name a product
    of the catalog, with a store and a cache that answer: exactly one row
    is added to [orders], with status ["pending"]; exactly one row per line
    is added to [order_items], in the order of the lines, each with the unit
    price of its product; the transaction is closed; the answer is 201 with
    [{ orderId, total }].  The total is a number: the lines, each the unit
    price read as a number times the quantity, added one after the other to
    0 with the rounding of doubles.  The answer carries that number as it
    is; the row of [orders] keeps it rounded to two decimals. *)
Theorem post_orders_places_order user its w :
  tx (pg w) = None →
  orders_from_seq (pg w) →
  healthy (pg_faults w) = true →
  fails_at (redis_faults w) 0 = false →
  Forall (product_exists (products (committed (pg w)))) its →
  let ps := products (committed (pg w)) in
  let oid := orders_id_seq (pg w) + 1 in
  let total := total_of_lines ps its in
  let rows := order_item_rows ps oid (order_items_id_seq (pg w)) its in
  let w' := (post_orders (OrderRequest user (Some its)) w).2 in
  orders (committed (pg w')) =
    orders (committed (pg w)) ++
    [Order oid user "pending" (decimal_of_number total) (now w)] ∧
  order_items (committed (pg w')) = order_items (committed (pg w)) ++ rows ∧
  length rows = length its ∧
  (∀ (i : nat) it, its !! i = Some it →
     ∃ price, price_of ps (item_product_id it) = Some price ∧
       rows !! i = Some (OrderItem (order_items_id_seq (pg w) + Z.of_nat i + 1) oid
                           (item_product_id it) (item_quantity it) price)) ∧
  products (committed (pg w')) = ps ∧
  tx (pg w') = None ∧
  res w' = Some (Response 201 (OrderCreated oid total)).
Proof.
  intros Htx Hseq Hok Hdel Hall ps oid total rows w'. subst w'.
  rewrite healthy_run, Hdel by done. cbn.
  rewrite tables_with_order_orders by done.
  repeat split; try done.
  - apply order_item_rows_length.
  - intros i it Hi.
    assert (Hit : product_exists ps it).
    { eapply Forall_forall; [done|]. by eapply list_elem_of_lookup_2. }
    destruct Hit as [price Hprice]. exists price. split; [done|].
    subst rows. rewrite (order_item_rows_lookup _ _ _ _ _ _ Hi).
    fold ps. by rewrite Hprice.
Qed.

(** C10. An order with an empty list of lines is not rejected: one row is
    added to [orders] with total 0, none to [order_items], and the answer
    is 201 with [{ orderId, total: 0 }], the number 0. *)
Theorem post_orders_empty_items user w :
  tx (pg w) = None →
  orders_from_seq (pg w) →
  healthy (pg_faults w) = true →
  fails_at (redis_faults w) 0 = false →
  let oid := orders_id_seq (pg w) + 1 in
  let w' := (post_orders (OrderRequest user (Some [])) w).2 in
  orders (committed (pg w')) =
    orders (committed (pg w)) ++ [Order oid user "pending" 0 (now w)] ∧
  order_items (committed (pg w')) = order_items (committed (pg w)) ∧
  tx (pg w') = None ∧
  res w' = Some (Response 201 (OrderCreated oid (Number_of_Z 0))).
Proof.
  intros Htx Hseq Hok Hdel oid w'. subst w'.
  rewrite healthy_run, Hdel by done. cbn.
  rewrite tables_with_order_orders by done. simpl.
  by rewrite app_nil_r.
Qed.

(** A read that misses always sends its query to the store, whether or not
    the store and the fill of the cache then go through. *)
Lemma miss_queries_store w :
  truthy (cache_read (redis w) (now w) "products") = None →
  fails_at (redis_faults w) 0 = false →
  ∃ rest,
    trace (get_products JSON_parse JSON_stringify w).2 =
    trace w ++ EvRedisGet "products" :: EvPoolQuery SqlSelectInStock :: rest.
Proof.
  intros Hmiss Hget.
  unfold get_products, try_catch, redis_get, pool_select_in_stock, redis_setEx,
    res_json, bind, get, modify.
  rewrite redis_call_run, Hget. cbn. rewrite Hmiss.
  rewrite pg_call_run. cbn.
  destruct (fails_at (pg_faults w) 0).
  - exists []. cbn. by rewrite <- app_assoc.
  - rewrite redis_call_run. cbn.
    exists [EvRedisSetEx "products" 300
              (JSON_stringify (select_in_stock_rows (products (committed (pg w)))))].
    destruct (fails_at (tail (redis_faults w)) 0); cbn; by rewrite <- !app_assoc.
Qed.

Lemma cache_read_delete (c : gmap string (string * Z)) t key :
  cache_read (delete key c) t key = None.
Proof. unfold cache_read. by rewrite lookup_delete_eq. Qed.

(** C9. Whenever the handler answers 201, the entry of the listing was
    deleted from the cache, by a call that follows [COMMIT].  The next read
    of the listing, whenever it comes and as long as its lookup goes
    through, finds no entry: it queries the store, and when the store and
    the fill answer, it returns the rows of the store as they are after the
    order. *)
Theorem post_orders_invalidates_listing req w b :
  tx (pg w) = None →
  res w = None →
  let w' := (post_orders req w).2 in
  res w' = Some (Response 201 b) →
  redis w' !! "products" = None ∧
  (∃ calls, trace w' = trace w ++ calls ++
      [EvClientQuery SqlCommit; EvRedisDel "products"; EvRelease]) ∧
  ∀ (t : Z) (pf rf : list bool) (tr : list event),
    fails_at rf 0 = false →
    let next := (get_products JSON_parse JSON_stringify
                   (World (pg w') (redis w') t pf rf tr None)).2 in
    (∃ rest, trace next =
       tr ++ EvRedisGet "products" :: EvPoolQuery SqlSelectInStock :: rest) ∧
    (fails_at pf 0 = false → fails_at rf 1 = false →
     res next = Some (Response 200
                  (Rows (select_in_stock_rows (products (committed (pg w'))))))).
Proof.
  intros Htx Hres w' H201.
  destruct (order_cases req w Htx)
    as [_ _ [Hr|Hr] | its Hits Hall Hdel Hw' | its _ _ _ _ _ [Hr|Hr]].
  all: try (fold w' in Hr; congruence).
  fold w' in Hw'. clearbody w'. subst w'. clear H201.
  assert (Hgone : ∀ t, truthy (cache_read (redis (order_placed (user_id req) its w))
                                 t "products") = None).
  { intros t. unfold order_placed. cbn [redis]. by rewrite cache_read_delete. }
  split; [unfold order_placed; cbn [redis]; apply lookup_delete_eq|].
  split.
  - unfold order_placed, order_calls. cbn [trace].
    exists ([EvConnect; EvClientQuery SqlBegin;
             EvClientQuery (SqlInsertOrder (user_id req) "pending" 0)] ++
            line_queries (products (committed (pg w))) (orders_id_seq (pg w) + 1) its ++
            [EvClientQuery (SqlUpdateOrderTotal
               (total_of_lines (products (committed (pg w))) its)
               (orders_id_seq (pg w) + 1))]).
    by rewrite <- !app_assoc.
  - intros t pf rf tr Hget next. split.
    + by apply (miss_queries_store (World _ _ t pf rf tr None)).
    + intros Hq Hset. subst next.
      by rewrite miss_run.
Qed.

(** A request with a line that names no product of the catalog: whatever
    the plans, nothing is committed and the cache is not touched; the answer
    is the 500 of the [catch] block (none when its [ROLLBACK] throws, or
    when no connection could be had). *)
Lemma unknown_product_rolls_back req its w :
  tx (pg w) = None →
  items req = Some its →
  ¬ Forall (product_exists (products (committed (pg w)))) its →
  let w' := (post_orders req w).2 in
  committed (pg w') = committed (pg w) ∧
  redis w' = redis w ∧
  (res w' = res w ∨
   res w' = Some (Response 500 (ErrorBody "Failed to create order"))).
Proof.
  intros Htx Hits Hnot w'.
  destruct (order_cases req w Htx)
    as [Hc Hr Hres | its' Hits' Hall _ _ | its' Hits' Hall _ _ _ _]; [done|..];
    rewrite Hits in Hits'; by injection Hits' as <-.
Qed.

(** An order that is committed and whose invalidation of the listing
    throws: the rows stay, a [ROLLBACK] is sent after the [COMMIT], and the
    answer is the 500 of the [catch] block. *)
Lemma invalidation_fails_after_commit user its w :
  tx (pg w) = None →
  healthy (pg_faults w) = true →
  fails_at (redis_faults w) 0 = true →
  Forall (product_exists (products (committed (pg w)))) its →
  post_orders (OrderRequest user (Some its)) w =
  (Ok tt, order_placed_reported_failed user its w).
Proof.
  intros Htx Hok Hdel Hall. by rewrite healthy_run, Hdel.
Qed.

(** The run on a request without [items], with a store that answers. *)
Lemma no_items_run user w :
  tx (pg w) = None →
  healthy (pg_faults w) = true →
  post_orders (OrderRequest user None) w =
  (Ok tt,
   World (PgState (committed (pg w)) None (orders_id_seq (pg w) + 1)
                  (order_items_id_seq (pg w)))
         (redis w) (now w) (drop 4 (pg_faults w)) (redis_faults w)
         (trace w ++ [EvConnect; EvClientQuery SqlBegin;
                      EvClientQuery (SqlInsertOrder user "pending" 0);
                      EvClientQuery SqlRollback; EvRelease])
         (Some (Response 500 (ErrorBody "Failed to create order")))).
Proof.
  intros Htx Hok.
  destruct w as [[c txw oseq iseq] r t pf rf tr rs]. simpl in *. subst txw.
  unfold post_orders, bind at 1, pool_connect. rewrite pg_call_run. world_simpl.
  rewrite (healthy_fails_at _ 0 Hok).
  unfold try_finally, try_catch, create_order, bind at 1.
  rewrite client_begin_run. world_simpl.
  rewrite fails_at_tail, (healthy_fails_at _ 1 Hok).
  unfold bind at 1. rewrite client_insert_order_run. world_simpl.
  rewrite !fails_at_tail, (healthy_fails_at _ 2 Hok).
  unfold order_failed, bind. rewrite client_rollback_run. world_simpl.
  rewrite !fails_at_tail, (healthy_fails_at _ 3 Hok).
  unfold client_release. world_simpl.
  rewrite !tail_drop, !drop_drop, <- !app_assoc. by cbn.
Qed.

(** C7, as the handler has it.  The handler validates nothing.  With a
    store that takes every statement: a request without [items] is not
    turned down before the store is reached: a transaction is opened, the
    order row is inserted, the transaction is rolled back and the answer is
    500, a server error; the committed tables and the cache are left as they
    were.  A request whose lines name products of the catalog is placed
    whatever the sign of its quantities, positive or not, and, when the
    invalidation of the listing answers, it is answered 201 with the total
    the loop has computed. *)
Theorem post_orders_validates_nothing user w :
  tx (pg w) = None →
  healthy (pg_faults w) = true →
  (let w' := (post_orders (OrderRequest user None) w).2 in
   res w' = Some (Response 500 (ErrorBody "Failed to create order")) ∧
   trace w' = trace w ++ [EvConnect; EvClientQuery SqlBegin;
                          EvClientQuery (SqlInsertOrder user "pending" 0);
                          EvClientQuery SqlRollback; EvRelease] ∧
   committed (pg w') = committed (pg w) ∧
   tx (pg w') = None ∧
   redis w' = redis w) ∧
  (∀ its,
     Forall (product_exists (products (committed (pg w)))) its →
     fails_at (redis_faults w) 0 = false →
     let w' := (post_orders (OrderRequest user (Some its)) w).2 in
     res w' = Some (Response 201
                (OrderCreated (orders_id_seq (pg w) + 1)
                              (total_of_lines (products (committed (pg w))) its))) ∧
     order_items (committed (pg w')) =
       order_items (committed (pg w)) ++
       order_item_rows (products (committed (pg w))) (orders_id_seq (pg w) + 1)
                       (order_items_id_seq (pg w)) its ∧
     EvClientQuery SqlBegin ∈ trace w').
Proof.
  intros Htx Hok. split.
  - by rewrite no_items_run.
  - intros its Hall Hdel w'. subst w'.
    rewrite healthy_run, Hdel by done.
    unfold order_placed, order_calls. cbn [snd res pg trace].
    split; [done|]. split; [done|]. set_solver.
Qed.

(** C8, as the handler has it.  The handler checks neither quantities nor
    totals.  When every line of the request has a positive quantity and no
    product of the catalog has a negative price, the rows it commits keep
    the tables within bounds, whatever the plans: every order has a
    non-negative total and every order item a positive quantity. *)
Theorem post_orders_rows_within_bounds req w :
  tx (pg w) = None →
  Forall (λ p, 0 ≤ product_price p) (products (committed (pg w))) →
  (∀ its, items req = Some its → Forall (λ it, 0 < item_quantity it) its) →
  Forall (λ o, 0 ≤ order_total o) (orders (committed (pg w))) →
  Forall (λ r, 0 < order_item_quantity r) (order_items (committed (pg w))) →
  let w' := (post_orders req w).2 in
  Forall (λ o, 0 ≤ order_total o) (orders (committed (pg w'))) ∧
  Forall (λ r, 0 < order_item_quantity r) (order_items (committed (pg w'))).
Proof.
  intros Htx Hprices Hqty Horders Hitems w'.
  assert (Hplaced : ∀ its, items req = Some its →
    let c := tables_with_order (committed (pg w)) (orders_id_seq (pg w))
               (order_items_id_seq (pg w)) (now w) (user_id req) its in
    Forall (λ o, 0 ≤ order_total o) (orders c) ∧
    Forall (λ r, 0 < order_item_quantity r) (order_items c)).
  { intros its Hits. specialize (Hqty its Hits).
    pose proof (total_of_lines_nonneg _ _ Hprices Hqty) as Hsum.
    unfold tables_with_order. cbn. split.
    - apply Forall_fmap, Forall_app. split.
      + eapply Forall_impl; [done|]. intros o Ho. unfold set_total. cbn.
        by case_match.
      + constructor; [|done]. unfold set_total. cbn. by case_match.
    - apply Forall_app. split; [done|].
      by apply (order_item_rows_quantity _ _ _ _ (λ q, 0 < q)). }
  destruct (order_cases req w Htx)
    as [Hc _ _ | its Hits _ _ Hw' | its Hits _ _ Hpg _ _]; fold w' in Hc || idtac.
  - by rewrite Hc.
  - fold w' in Hw'. rewrite Hw'. by apply Hplaced.
  - fold w' in Hpg. rewrite Hpg. by apply Hplaced.
Qed.

End Properties.

(** * The handlers at work on the seeded catalog *)

(** ** Reads of the listing *)

Lemma get_products_miss_witness :
  (truthy (cache_read (redis fresh) (now fresh) "products") = None ∧
   fails_at (redis_faults fresh) 0 = false ∧
   fails_at (pg_faults fresh) 0 = false ∧
   fails_at (redis_faults fresh) 1 = false) ∧
  let w' := (get_products read_bracketed print_names fresh).2 in
  trace w' = [EvRedisGet "products"; EvPoolQuery SqlSelectInStock;
              EvRedisSetEx "products" 300
                "[Laptop Pro,Wireless Mouse,Mechanical Keyboard,4K Monitor]"] ∧
  redis w' !! "products" =
    Some ("[Laptop Pro,Wireless Mouse,Mechanical Keyboard,4K Monitor]", 1300) ∧
  res w' = Some (Response 200 (Rows seeded)).
Proof.
  split; [by repeat split|].
  destruct (get_products_miss read_bracketed print_names fresh)
    as (_ & _ & _ & Htrace & Hredis & Hres & _); try reflexivity.
  cbv zeta. rewrite Htrace, Hredis, Hres.
  by repeat split.
Defined.

Lemma get_products_hit_witness :
  (redis warm !! "products" = Some ("[Laptop Pro]", 1200) ∧
   now warm < 1200 ∧
   "[Laptop Pro]" ≠ EmptyString ∧
   fails_at (redis_faults warm) 0 = false ∧
   read_bracketed "[Laptop Pro]" = Some "[Laptop Pro]") ∧
  let moved := PgState (Tables [] [] []) None 0 0 in
  let w' := (get_products read_bracketed print_names (set_pg (λ _, moved) warm)).2 in
  res w' = Some (Response 200 (Parsed "[Laptop Pro]")) ∧
  trace w' = [EvRedisGet "products"].
Proof.
  assert (H : redis warm !! "products" = Some ("[Laptop Pro]", 1200) ∧
              now warm < 1200 ∧
              "[Laptop Pro]" ≠ EmptyString ∧
              fails_at (redis_faults warm) 0 = false ∧
              read_bracketed "[Laptop Pro]" = Some "[Laptop Pro]")
    by (repeat split; try reflexivity; discriminate).
  split; [exact H|]. destruct H as (H1 & H2 & H3 & H4 & H5).
  destruct (get_products_hit read_bracketed print_names warm "[Laptop Pro]" 1200
              "[Laptop Pro]" (PgState (Tables [] [] []) None 0 0) H1 H2 H3 H4 H5)
    as (Hres & Htrace & _).
  cbv zeta. by rewrite Hres, Htrace.
Defined.

(** With the cache down, the read of the listing does not fall back on
    the store: it answers 500 and the store is not queried, although the
    store holds four products in stock. *)
Lemma get_products_no_fallback :
  let w' := (get_products read_bracketed print_names cache_down).2 in
  fails_at (redis_faults cache_down) 0 = true ∧
  res w' = Some (Response 500 (ErrorBody "Internal server error")) ∧
  res w' ≠ Some (Response 200
                   (Rows (select_in_stock_rows (products (committed (pg cache_down)))))) ∧
  trace w' = [EvRedisGet "products"].
Proof. by vm_compute. Qed.

Lemma get_products_cache_unavailable_witness :
  fails_at (redis_faults cache_down) 0 = true ∧
  let w' := (get_products read_bracketed print_names cache_down).2 in
  res w' = Some (Response 500 (ErrorBody "Internal server error")) ∧
  trace w' = [EvRedisGet "products"] ∧
  pg w' = pg cache_down.
Proof.
  split; [reflexivity|].
  destruct (get_products_cache_unavailable read_bracketed print_names cache_down)
    as (Hres & Htrace & Hpg & _); [by left|].
  cbv zeta. by rewrite Hres, Htrace, Hpg.
Defined.

(** ** Orders *)

Lemma post_orders_places_order_witness :
  (tx (pg fresh) = None ∧
   orders_from_seq (pg fresh) ∧
   healthy (pg_faults fresh) = true ∧
   fails_at (redis_faults fresh) 0 = false ∧
   Forall (product_exists (products (committed (pg fresh)))) [Item 2 3; Item 1 1]) ∧
  let w' := (post_orders (OrderRequest 7 (Some [Item 2 3; Item 1 1])) fresh).2 in
  orders (committed (pg w')) = [Order 1 7 "pending" 138996 1000] ∧
  order_items (committed (pg w')) = [OrderItem 1 1 2 3 2999; OrderItem 2 1 1 1 129999] ∧
  res w' = Some (Response 201 (OrderCreated 1 (Number_of_decimal 138996))).
Proof.
  assert (Hall : Forall (product_exists (products (committed (pg fresh))))
                        [Item 2 3; Item 1 1])
    by (repeat constructor; by eexists).
  assert (Hseq : orders_from_seq (pg fresh)) by constructor.
  split; [by repeat split|].
  destruct (post_orders_places_order (json := string) 7 [Item 2 3; Item 1 1] fresh
              eq_refl Hseq eq_refl eq_refl Hall)
    as (Horders & Hitems & _ & _ & _ & _ & Hres).
  cbv zeta. rewrite Horders, Hitems, Hres. vm_compute. repeat split.
Defined.

(** Three keyboards at 89.99.  The exact sum of the lines is 269.97; the
    answer carries the number the loop has computed, 269.96999999999997,
    the double just below the one nearest to 269.97, while the row of
    [orders] keeps 269.97.  And on lines that cancel (thirteen lines of
    2147483647 laptops, two mice, thirteen lines of -2147483647 laptops)
    the total kept in the store goes off as well: the exact sum is 59.98,
    the sum of doubles is 59.9736328125 and the store keeps 59.97. *)
Lemma post_orders_total_is_not_the_sum :
  let its := [Item 3 3] in
  let w' := (post_orders (OrderRequest 7 (Some its)) fresh).2 in
  let cancel := replicate 13 (Item 1 2147483647) ++ [Item 2 2] ++
                replicate 13 (Item 1 (-2147483647)) in
  let w'' := (post_orders (OrderRequest 7 (Some cancel)) fresh).2 in
  Forall (product_exists seeded) its ∧
  sum_of_lines seeded its = 26997 ∧
  Number_of_decimal 26997 = S754_finite false 4749362466410988 (-44) ∧
  res w' = Some (Response 201
             (OrderCreated 1 (S754_finite false 4749362466410987 (-44)))) ∧
  res w' ≠ Some (Response 201
             (OrderCreated 1 (Number_of_decimal (sum_of_lines seeded its)))) ∧
  orders (committed (pg w')) = [Order 1 7 "pending" 26997 1000] ∧
  Forall (product_exists seeded) cancel ∧
  sum_of_lines seeded cancel = 5998 ∧
  total_of_lines seeded cancel = S754_finite false 8440538449575936 (-47) ∧
  orders (committed (pg w'')) = [Order 1 7 "pending" 5997 1000] ∧
  length (order_items (committed (pg w''))) = 27%nat.
Proof.
  repeat split; try (vm_compute; reflexivity);
    try (repeat constructor; eexists; reflexivity).
  vm_compute. intros H. discriminate H.
Qed.

Lemma post_orders_empty_items_witness :
  (tx (pg fresh) = None ∧
   orders_from_seq (pg fresh) ∧
   healthy (pg_faults fresh) = true ∧
   fails_at (redis_faults fresh) 0 = false) ∧
  let w' := (post_orders (OrderRequest 7 (Some [])) fresh).2 in
  orders (committed (pg w')) = [Order 1 7 "pending" 0 1000] ∧
  order_items (committed (pg w')) = [] ∧
  res w' = Some (Response 201 (OrderCreated 1 (Number_of_Z 0))).
Proof.
  assert (Hseq : orders_from_seq (pg fresh)) by constructor.
  split; [by repeat split|].
  destruct (post_orders_empty_items (json := string) 7 fresh eq_refl Hseq eq_refl eq_refl)
    as (Horders & Hitems & _ & Hres).
  cbv zeta. rewrite Horders, Hitems, Hres. vm_compute. repeat split.
Defined.

Lemma post_orders_invalidates_listing_witness :
  let w' := (post_orders (OrderRequest 7 (Some [Item 2 3])) warm).2 in
  (tx (pg warm) = None ∧
   res warm = None ∧
   res w' = Some (Response 201 (OrderCreated 1 (Number_of_decimal 8997)))) ∧
  redis warm !! "products" = Some ("[Laptop Pro]", 1200) ∧
  redis w' !! "products" = None ∧
  res (get_products read_bracketed print_names
         (World (pg w') (redis w') 1001 [] [] [] None)).2 =
    Some (Response 200 (Rows seeded)).
Proof.
  intros w'.
  assert (H201 : res w' = Some (Response 201 (OrderCreated 1 (Number_of_decimal 8997)))) by reflexivity.
  split; [by repeat split|]. split; [reflexivity|].
  destruct (post_orders_invalidates_listing read_bracketed print_names
              (OrderRequest 7 (Some [Item 2 3])) warm (OrderCreated 1 (Number_of_decimal 8997))
              eq_refl eq_refl H201)
    as (Hgone & _ & Hnext).
  split; [exact Hgone|].
  destruct (Hnext 1001 [] [] [] eq_refl) as [_ Hres].
  exact (Hres eq_refl eq_refl).
Defined.

(** A line with quantity 0 is not turned down: a transaction is opened,
    the order is committed and the answer is 201.  And a request without
    [items] is answered 500, a server error, after a transaction was opened
    and the order row inserted. *)
Lemma post_orders_accepts_quantity_zero :
  let w' := (post_orders (OrderRequest 7 (Some [Item 2 0])) fresh).2 in
  let w'' := (post_orders (OrderRequest 7 None) fresh).2 in
  res w' = Some (Response 201 (OrderCreated 1 (Number_of_Z 0))) ∧
  trace w' = [EvConnect; EvClientQuery SqlBegin;
              EvClientQuery (SqlInsertOrder 7 "pending" 0);
              EvClientQuery (SqlSelectPrice 2);
              EvClientQuery (SqlInsertOrderItem 1 2 0 2999);
              EvClientQuery (SqlUpdateOrderTotal (Number_of_Z 0) 1);
              EvClientQuery SqlCommit; EvRedisDel "products"; EvRelease] ∧
  orders (committed (pg w')) = [Order 1 7 "pending" 0 1000] ∧
  order_items (committed (pg w')) = [OrderItem 1 1 2 0 2999] ∧
  res w'' = Some (Response 500 (ErrorBody "Failed to create order")) ∧
  trace w'' = [EvConnect; EvClientQuery SqlBegin;
               EvClientQuery (SqlInsertOrder 7 "pending" 0);
               EvClientQuery SqlRollback; EvRelease].
Proof. by vm_compute. Qed.

Lemma post_orders_validates_nothing_witness :
  (tx (pg fresh) = None ∧ healthy (pg_faults fresh) = true) ∧
  let w' := (post_orders (OrderRequest 7 None) fresh).2 in
  res w' = Some (Response 500 (ErrorBody "Failed to create order")) ∧
  committed (pg w') = committed (pg fresh) ∧
  res (post_orders (OrderRequest 7 (Some [Item 2 (-3)])) fresh).2 =
    Some (Response 201 (OrderCreated 1 (Number_of_decimal (-8997)))).
Proof.
  split; [by split|].
  destruct (post_orders_validates_nothing (json := string) 7 fresh eq_refl eq_refl)
    as [(Hres & _ & Hc & _) Hany].
  assert (Hall : Forall (product_exists (products (committed (pg fresh)))) [Item 2 (-3)])
    by (repeat constructor; by eexists).
  destruct (Hany [Item 2 (-3)] Hall eq_refl) as (H201 & _).
  cbv zeta. rewrite Hres, Hc, H201. vm_compute. repeat split.
Defined.

(** A line with quantity -3 on the mouse at 29.99: the order is committed
    with total -89.97 and its item with quantity -3. *)
Lemma post_orders_persists_negative_rows :
  let w' := (post_orders (OrderRequest 7 (Some [Item 2 (-3)])) fresh).2 in
  orders (committed (pg w')) = [Order 1 7 "pending" (-8997) 1000] ∧
  order_items (committed (pg w')) = [OrderItem 1 1 2 (-3) 2999] ∧
  res w' = Some (Response 201 (OrderCreated 1 (Number_of_decimal (-8997)))) ∧
  ¬ Forall (λ o, 0 ≤ order_total o) (orders (committed (pg w'))) ∧
  ¬ Forall (λ r, 0 < order_item_quantity r) (order_items (committed (pg w'))).
Proof.
  vm_compute. repeat split; try reflexivity;
    intros H; apply Forall_inv in H; by vm_compute in H.
Qed.

Lemma post_orders_rows_within_bounds_witness :
  let req := OrderRequest 7 (Some [Item 2 3]) in
  (tx (pg fresh) = None ∧
   Forall (λ p, 0 ≤ product_price p) (products (committed (pg fresh))) ∧
   (∀ its, items req = Some its → Forall (λ it, 0 < item_quantity it) its) ∧
   Forall (λ o, 0 ≤ order_total o) (orders (committed (pg fresh))) ∧
   Forall (λ r, 0 < order_item_quantity r) (order_items (committed (pg fresh)))) ∧
  let w' := (post_orders req fresh).2 in
  orders (committed (pg w')) = [Order 1 7 "pending" 8997 1000] ∧
  Forall (λ o, 0 ≤ order_total o) (orders (committed (pg w'))) ∧
  Forall (λ r, 0 < order_item_quantity r) (order_items (committed (pg w'))).
Proof.
  intros req.
  assert (Hprices : Forall (λ p, 0 ≤ product_price p) (products (committed (pg fresh))))
    by (repeat constructor; by vm_compute).
  assert (Hqty : ∀ its, items req = Some its → Forall (λ it, 0 < item_quantity it) its).
  { intros its Hits. injection Hits as <-. by repeat constructor. }
  assert (Horders : Forall (λ o, 0 ≤ order_total o) (orders (committed (pg fresh))))
    by constructor.
  assert (Hitems : Forall (λ r, 0 < order_item_quantity r)
                     (order_items (committed (pg fresh))))
    by constructor.
  split; [by repeat split|].
  destruct (post_orders_rows_within_bounds (json := string) req fresh
              eq_refl Hprices Hqty Horders Hitems) as [H1 H2].
  by repeat split.
Defined.

(** C2 at work.  An order whose second line names product 999, which the
    catalog does not have: [product.rows[0]] is [undefined], the [TypeError]
    lands in the [catch] block, the transaction is rolled back and no row
    stays; but the answer is 500, a server error, where the route
    [/api/products/:id] answers 404 for a product that does not exist. *)
Theorem post_orders_unknown_product_answers_500 :
  let w' := (post_orders (OrderRequest 7 (Some [Item 2 3; Item 999 1])) fresh).2 in
  res w' = Some (Response 500 (ErrorBody "Failed to create order")) ∧
  committed (pg w') = committed (pg fresh) ∧
  tx (pg w') = None ∧
  trace w' = [EvConnect; EvClientQuery SqlBegin;
              EvClientQuery (SqlInsertOrder 7 "pending" 0);
              EvClientQuery (SqlSelectPrice 2);
              EvClientQuery (SqlInsertOrderItem 1 2 3 2999);
              EvClientQuery (SqlSelectPrice 999);
              EvClientQuery SqlRollback; EvRelease].
Proof. by vm_compute. Qed.

(** C3 at work.  An order for three mice with a cache whose [del] throws:
    the order and its item are committed and stay, a [ROLLBACK] is sent
    after the [COMMIT], and the answer is 500 with ['Failed to create
    order'] instead of 201 with the order. *)
Theorem post_orders_invalidation_failure_answers_500 :
  let w' := (post_orders (OrderRequest 7 (Some [Item 2 3])) cache_down).2 in
  res w' = Some (Response 500 (ErrorBody "Failed to create order")) ∧
  orders (committed (pg w')) = [Order 1 7 "pending" 8997 1000] ∧
  order_items (committed (pg w')) = [OrderItem 1 1 2 3 2999] ∧
  trace w' = [EvConnect; EvClientQuery SqlBegin;
              EvClientQuery (SqlInsertOrder 7 "pending" 0);
              EvClientQuery (SqlSelectPrice 2);
              EvClientQuery (SqlInsertOrderItem 1 2 3 2999);
              EvClientQuery (SqlUpdateOrderTotal (Number_of_decimal 8997) 1);
              EvClientQuery SqlCommit; EvRedisDel "products";
              EvClientQuery SqlRollback; EvRelease].
Proof. by vm_compute. Qed.

(** * More properties of the two handlers *)

Section MoreProperties.

Context {json : Type}.
Variable JSON_parse : string → option json.
Variable JSON_stringify : list product → string.

Implicit Types (w : world json) (its : list item).

Local Arguments fails_at : simpl never.
Local Arguments select_in_stock_rows : simpl never.
Local Arguments cache_read : simpl never.
Local Arguments tables_with_order : simpl never.

(** ** The listing, whatever happens *)

Lemma truthy_Some cached text :
  truthy cached = Some text ↔ cached = Some text ∧ text ≠ EmptyString.
Proof.
  unfold truthy. destruct cached as [s|]; [|by split; [|intros [? _]]].
  destruct (String.eqb_spec s EmptyString) as [->|Hne].
  - split; [done|]. by intros [[= ->] ?].
  - split; [by intros [= ->]|]. by intros [[= ->] _].
Qed.

(** The run of a read that hits a text [JSON.parse] throws on. *)
Lemma hit_unreadable_run w text :
  truthy (cache_read (redis w) (now w) "products") = Some text →
  fails_at (redis_faults w) 0 = false →
  JSON_parse text = None →
  get_products JSON_parse JSON_stringify w =
  (Ok tt,
   World (pg w) (redis w) (now w) (pg_faults w) (tail (redis_faults w))
         (trace w ++ [EvRedisGet "products"])
         (Some (Response 500 (ErrorBody "Internal server error")))).
Proof.
  intros Hread Hget Hparse.
  unfold get_products, try_catch, redis_get, res_json, bind, get, modify.
  rewrite redis_call_run, Hget. cbn. rewrite Hread. by rewrite Hparse.
Qed.

(** The run of a read that misses and whose query throws. *)
Lemma miss_store_fails_run w :
  truthy (cache_read (redis w) (now w) "products") = None →
  fails_at (redis_faults w) 0 = false →
  fails_at (pg_faults w) 0 = true →
  get_products JSON_parse JSON_stringify w =
  (Ok tt,
   World (pg w) (redis w) (now w) (tail (pg_faults w)) (tail (redis_faults w))
         (trace w ++ [EvRedisGet "products"; EvPoolQuery SqlSelectInStock])
         (Some (Response 500 (ErrorBody "Internal server error")))).
Proof.
  intros Hmiss Hget Hq.
  unfold get_products, try_catch, redis_get, pool_select_in_stock, redis_setEx,
    res_json, bind, get, modify.
  rewrite redis_call_run, Hget. cbn. rewrite Hmiss.
  rewrite pg_call_run. cbn. rewrite Hq. cbn.
  unfold set_res. cbn. by rewrite <- !app_assoc.
Qed.

(** X1. Whatever the store, the cache and the plans, the read of the
    listing never throws out of its handler and always answers, 200 or 500
    with [{ error: 'Internal server error' }]; it never changes the store,
    the clock, or a key of the cache other than ["products"]. *)
Theorem get_products_always_answers w :
  let r := get_products JSON_parse JSON_stringify w in
  r.1 = Ok tt ∧
  ((∃ b, res r.2 = Some (Response 200 b)) ∨
   res r.2 = Some (Response 500 (ErrorBody "Internal server error"))) ∧
  pg r.2 = pg w ∧
  now r.2 = now w ∧
  ∀ key, key ≠ "products" → redis r.2 !! key = redis w !! key.
Proof.
  intros r. subst r.
  destruct (fails_at (redis_faults w) 0) eqn:Hget.
  { rewrite get_fails_run by done. cbn. by eauto 10. }
  destruct (truthy (cache_read (redis w) (now w) "products")) as [text|] eqn:Hread.
  - pose proof Hread as [Hc Hne]%truthy_Some.
    destruct (JSON_parse text) as [v|] eqn:Hparse.
    + rewrite (hit_run _ _ w text v) by done. cbn. by eauto 10.
    + rewrite (hit_unreadable_run w text) by done. cbn. by eauto 10.
  - destruct (fails_at (pg_faults w) 0) eqn:Hq.
    { rewrite miss_store_fails_run by done. cbn. by eauto 10. }
    destruct (fails_at (redis_faults w) 1) eqn:Hset.
    + rewrite set_fails_run by done. cbn. by eauto 10.
    + rewrite miss_run by done. cbn -[insert].
      repeat split; eauto. intros key Hkey. by apply lookup_insert_ne.
Qed.

(** X2. The read of the listing answers 200 exactly when it gets through:
    the lookup answers and either the entry is one [JSON.parse] reads, or
    there is no entry and both the store and the fill answer.  An entry
    that cannot be read, a store that is down on a miss, a cache that is
    down: each gives 500. *)
Theorem get_products_answers_200_iff w :
  (∃ b, res (get_products JSON_parse JSON_stringify w).2 = Some (Response 200 b)) ↔
  listing_gets_through JSON_parse w.
Proof.
  unfold listing_gets_through.
  destruct (fails_at (redis_faults w) 0) eqn:Hget.
  { rewrite get_fails_run by done. cbn. split; [by intros [b ?]|by intros [? _]]. }
  destruct (truthy (cache_read (redis w) (now w) "products")) as [text|] eqn:Hread.
  - pose proof Hread as [Hc Hne]%truthy_Some.
    destruct (JSON_parse text) as [v|] eqn:Hparse.
    + rewrite (hit_run _ _ w text v) by done. cbn. split; [by eauto|by eauto].
    + rewrite (hit_unreadable_run w text) by done. cbn.
      split; [by intros [b ?]|]. by intros [_ [? ?]].
  - destruct (fails_at (pg_faults w) 0) eqn:Hq.
    { rewrite miss_store_fails_run by done. cbn.
      split; [by intros [b ?]|by intros [_ [? _]]]. }
    destruct (fails_at (redis_faults w) 1) eqn:Hset.
    + rewrite set_fails_run by done. cbn.
      split; [by intros [b ?]|by intros [_ [_ ?]]].
    + rewrite miss_run by done. cbn -[insert]. split; [done|by eauto].
Qed.

Lemma cache_read_expired (c : gmap string (string * Z)) t key text expires :
  c !! key = Some (text, expires) → expires ≤ t →
  cache_read c t key = None.
Proof.
  intros Hc Ht. unfold cache_read. rewrite Hc.
  by destruct (Z.ltb_spec t expires); [lia|].
Qed.

(** X3. A listing put in the cache by a read that missed is served for
    300 seconds and no longer.  A later read, with a store that may have
    changed to any [s]: before the 300 seconds are over it makes the lookup
    only and returns the cached text as [JSON.parse] reads it; from then on
    it queries the store again, returns the rows of [s] and caches them for
    another 300 seconds. *)
Theorem cached_listing_lives_300_seconds w (s : pgstate) (t : Z) :
  truthy (cache_read (redis w) (now w) "products") = None →
  fails_at (redis_faults w) 0 = false →
  fails_at (pg_faults w) 0 = false →
  fails_at (redis_faults w) 1 = false →
  let rows := select_in_stock_rows (products (committed (pg w))) in
  let w1 := (get_products JSON_parse JSON_stringify w).2 in
  let later := World s (redis w1) t [] [] [] None in
  (∀ v, t < now w + 300 →
     JSON_stringify rows ≠ EmptyString →
     JSON_parse (JSON_stringify rows) = Some v →
     get_products JSON_parse JSON_stringify later =
     (Ok tt, World s (redis w1) t [] [] [EvRedisGet "products"]
                   (Some (Response 200 (Parsed v))))) ∧
  (now w + 300 ≤ t →
     let rows' := select_in_stock_rows (products (committed s)) in
     get_products JSON_parse JSON_stringify later =
     (Ok tt, World s (<["products" := (JSON_stringify rows', t + 300)]> (redis w1)) t [] []
                   [EvRedisGet "products"; EvPoolQuery SqlSelectInStock;
                    EvRedisSetEx "products" 300 (JSON_stringify rows')]
                   (Some (Response 200 (Rows rows'))))).
Proof.
  intros Hmiss Hget Hq Hset rows w1 later. split.
  - intros v Ht Hne Hparse. by apply miss_then_hit.
  - intros Ht rows'. subst later w1.
    rewrite (miss_run _ _ w) by done. cbn -[insert].
    rewrite miss_run; [done| |done..]. cbn -[insert].
    erewrite cache_read_expired; [done|apply lookup_insert_eq|done].
Qed.

(** ** Orders, whatever happens *)

(** X4. An order is all or nothing.  Whatever the request and whatever
    fails on the way, the committed tables after the handler are either
    the tables before it, or the tables with the whole order: one more row
    in [orders], with some total set on it, and one more row in
    [order_items] for each line.  No run leaves the order without some of
    its lines, or lines without their order. *)
Theorem post_orders_all_or_nothing req w :
  tx (pg w) = None →
  let c := committed (pg w) in
  let c' := committed (pg (post_orders req w).2) in
  let oid := orders_id_seq (pg w) + 1 in
  c' = c ∨
  ∃ its total,
    items req = Some its ∧
    Forall (product_exists (products c)) its ∧
    c' = update_order_total_rows total oid
           (Tables (products c)
                   (orders c ++ [Order oid (user_id req) "pending" 0 (now w)])
                   (order_items c ++
                    order_item_rows (products c) oid (order_items_id_seq (pg w)) its)) ∧
    length (orders c') = S (length (orders c)) ∧
    length (order_items c') = (length (order_items c) + length its)%nat.
Proof.
  intros Htx c c' oid.
  assert (Hlen : ∀ its,
    let t := tables_with_order c (orders_id_seq (pg w)) (order_items_id_seq (pg w))
               (now w) (user_id req) its in
    length (orders t) = S (length (orders c)) ∧
    length (order_items t) = (length (order_items c) + length its)%nat).
  { intros its. unfold tables_with_order. cbn.
    rewrite length_fmap, !length_app, order_item_rows_length. cbn. lia. }
  destruct (order_cases req w Htx)
    as [Hc _ _ | its Hits Hall _ Hw' | its Hits Hall _ Hpg _ _].
  - by left.
  - right. exists its, (decimal_of_number (total_of_lines (products c) its)).
    subst c'. rewrite Hw'. cbn.
    split; [done|]. split; [done|]. split; [done|]. apply Hlen.
  - right. exists its, (decimal_of_number (total_of_lines (products c) its)).
    subst c'. rewrite Hpg. cbn.
    split; [done|]. split; [done|]. split; [done|]. apply Hlen.
Qed.

(** X5. Placing an order never touches the catalog: whatever the request
    and whatever fails, the rows of [products] are the same after the
    handler as before, stock included, so the store gives the same listing.
    In the cache the handler can only delete ["products"]: every other key
    keeps its entry. *)
Theorem post_orders_keeps_catalog req w :
  tx (pg w) = None →
  let w' := (post_orders req w).2 in
  products (committed (pg w')) = products (committed (pg w)) ∧
  select_in_stock_rows (products (committed (pg w'))) =
    select_in_stock_rows (products (committed (pg w))) ∧
  (redis w' = redis w ∨ redis w' = delete "products" (redis w)) ∧
  ∀ key, key ≠ "products" → redis w' !! key = redis w !! key.
Proof.
  intros Htx w'.
  assert (Hps : products (committed (pg w')) = products (committed (pg w)) ∧
                (redis w' = redis w ∨ redis w' = delete "products" (redis w))).
  { destruct (order_cases req w Htx)
      as [Hc Hr _ | its _ _ _ Hw' | its _ _ _ Hpg Hr _]; fold w' in Hc || idtac.
    - fold w' in Hr. rewrite Hc. by eauto.
    - fold w' in Hw'. rewrite Hw'. unfold order_placed. cbn [pg redis]. by eauto.
    - fold w' in Hpg, Hr. rewrite Hpg. by eauto. }
  destruct Hps as [Hps Hr]. rewrite Hps.
  repeat split; [done|].
  intros key Hkey. destruct Hr as [->| ->]; [done|].
  by apply lookup_delete_ne.
Qed.

(** X6. The connection is given back on every way out.  When
    [pool.connect()] throws, the handler ends there: nothing is sent to the
    store, nothing is answered and the rejection is left unhandled.
    Otherwise, whatever the request and whatever fails later, the
    [ROLLBACK] of the [catch] block included, the last call of the handler
    is [client.release()]. *)
Theorem post_orders_releases_connection req w :
  let r := post_orders req w in
  if fails_at (pg_faults w) 0
  then r = (Throw PgError, pg_called EvConnect w)
  else last (trace r.2) = Some EvRelease.
Proof.
  intros r. subst r.
  assert (Hrun : post_orders req w =
    if fails_at (pg_faults w) 0
    then (Throw PgError, pg_called EvConnect w)
    else try_finally (try_catch (create_order req) order_failed) client_release
           (pg_called EvConnect w)).
  { unfold post_orders, bind at 1, pool_connect. rewrite pg_call_run.
    by destruct (fails_at (pg_faults w) 0). }
  rewrite Hrun. destruct (fails_at (pg_faults w) 0); [done|].
  unfold try_finally.
  destruct (try_catch (create_order req) order_failed (pg_called EvConnect w))
    as [o w2].
  unfold client_release, log. cbn [snd trace]. apply last_snoc.
Qed.

(** ** How the calls advance the world *)

Lemma advances_refl w : advances w w.
Proof. unfold advances. split; [lia|]. split; [lia|]. by exists 0%nat. Qed.

Lemma advances_trans w1 w2 w3 :
  advances w1 w2 → advances w2 w3 → advances w1 w3.
Proof.
  intros (Ho & Hi & n & Hn) (Ho' & Hi' & m & Hm).
  split; [lia|]. split; [lia|].
  exists (n + m)%nat. by rewrite Hm, Hn, drop_drop.
Qed.

Lemma advances_same_store w w' :
  pg w' = pg w → pg_faults w' = pg_faults w → advances w w'.
Proof.
  intros Hpg Hplan. unfold advances. rewrite Hpg, Hplan.
  split; [lia|]. split; [lia|]. by exists 0%nat.
Qed.

Lemma steps_ret {A} (a : A) : steps (json := json) (ret a).
Proof. intros w. apply advances_refl. Qed.

Lemma steps_throw {A} e : steps (json := json) (A := A) (throw e).
Proof. intros w. apply advances_refl. Qed.

Lemma steps_get {A} (f : world json → A) : steps (get f).
Proof. intros w. apply advances_refl. Qed.

Lemma steps_modify (f : world json → world json) :
  (∀ w, advances w (f w)) → steps (modify f).
Proof. intros Hf w. apply Hf. Qed.

Lemma steps_bind {A B} (m : M json A) (k : A → M json B) :
  steps m → (∀ a, steps (k a)) → steps (let* a := m in k a).
Proof.
  intros Hm Hk w. unfold bind. specialize (Hm w).
  destruct (m w) as [[a|e] w1]; [|done].
  eapply advances_trans; [done|apply Hk].
Qed.

Lemma steps_try_catch {A} (m : M json A) h :
  steps m → (∀ e, steps (h e)) → steps (try_catch m h).
Proof.
  intros Hm Hh w. unfold try_catch. specialize (Hm w).
  destruct (m w) as [[a|e] w1]; [done|].
  eapply advances_trans; [done|apply Hh].
Qed.

Lemma steps_try_finally {A} (m : M json A) f :
  steps m → (∀ w, advances w (f w)) → steps (try_finally m f).
Proof.
  intros Hm Hf w. unfold try_finally. specialize (Hm w).
  destruct (m w) as [o w1]. eapply advances_trans; [done|apply Hf].
Qed.

Lemma steps_pg_call e : steps (json := json) (pg_call e).
Proof.
  intros w. rewrite pg_call_run. unfold advances, pg_called, set_pg_faults, log. cbn.
  split; [lia|]. split; [lia|]. exists 1%nat. apply tail_drop.
Qed.

Lemma steps_redis_call e : steps (json := json) (redis_call e).
Proof. intros w. rewrite redis_call_run. by apply advances_same_store. Qed.

Lemma advances_set_pg (f : pgstate → pgstate) w :
  orders_id_seq (pg w) ≤ orders_id_seq (f (pg w)) →
  order_items_id_seq (pg w) ≤ order_items_id_seq (f (pg w)) →
  advances w (set_pg f w).
Proof. intros Ho Hi. split; [done|]. split; [done|]. by exists 0%nat. Qed.

Lemma write_sequences f (s : pgstate) :
  orders_id_seq (write f s) = orders_id_seq s ∧
  order_items_id_seq (write f s) = order_items_id_seq s.
Proof. unfold write. by destruct (tx s). Qed.

Lemma steps_add_order_items oid its total :
  steps (json := json) (add_order_items oid its total).
Proof.
  revert total. induction its as [|it rest IH]; intros total; [apply steps_ret|].
  simpl. apply steps_bind.
  - apply steps_bind; [apply steps_pg_call|intros _; apply steps_get].
  - intros [|price rows]; [apply steps_throw|].
    apply steps_bind; [|intros _; apply IH].
    repeat (apply steps_bind; [|intros ?]);
      [apply steps_pg_call|apply steps_modify|apply steps_get|apply steps_modify];
      intros w; apply advances_set_pg; cbn;
      rewrite ?(proj1 (write_sequences _ _)), ?(proj2 (write_sequences _ _)); cbn; lia.
Qed.

Lemma steps_order_failed e : steps (json := json) (order_failed e).
Proof.
  apply steps_bind.
  - apply steps_bind; [apply steps_pg_call|intros _].
    apply steps_modify. intros w. by apply advances_set_pg.
  - intros _. apply steps_modify. intros w. by apply advances_same_store.
Qed.

Lemma steps_create_order req : steps (json := json) (create_order req).
Proof.
  unfold create_order.
  apply steps_bind.
  { apply steps_bind; [apply steps_pg_call|intros _].
    apply steps_modify. intros w. apply advances_set_pg; cbn;
      unfold pg_begin; by destruct (tx (pg w)). }
  intros _. apply steps_bind.
  { repeat (apply steps_bind; [|intros ?]);
      [apply steps_pg_call|apply steps_modify|apply steps_get|apply steps_get
      |apply steps_modify|apply steps_ret];
      intros w; apply advances_set_pg; cbn;
      rewrite ?(proj1 (write_sequences _ _)), ?(proj2 (write_sequences _ _)); cbn; lia. }
  intros orderResult. apply steps_bind.
  { destruct (items req); [apply steps_add_order_items|apply steps_throw]. }
  intros total. apply steps_bind.
  { apply steps_bind; [apply steps_pg_call|intros _].
    apply steps_modify. intros w. apply advances_set_pg;
      by rewrite ?(proj1 (write_sequences _ _)), ?(proj2 (write_sequences _ _)). }
  intros _. apply steps_bind.
  { apply steps_bind; [apply steps_pg_call|intros _].
    apply steps_modify. intros w. apply advances_set_pg; cbn;
      unfold pg_commit; by destruct (tx (pg w)). }
  intros _. apply steps_bind.
  { apply steps_bind; [apply steps_redis_call|intros _].
    apply steps_modify. intros w. by apply advances_same_store. }
  intros _. apply steps_modify. intros w. by apply advances_same_store.
Qed.

Lemma steps_post_orders req : steps (json := json) (post_orders req).
Proof.
  apply steps_bind; [apply steps_pg_call|intros _].
  apply steps_try_finally.
  - apply steps_try_catch; [apply steps_create_order|apply steps_order_failed].
  - intros w. by apply advances_same_store.
Qed.

Lemma healthy_drop plan n :
  healthy plan = true → healthy (drop n plan) = true.
Proof.
  revert plan. induction n as [|n IH]; intros plan H; [done|].
  destruct plan as [|b plan]; [done|]. simpl. apply IH.
  simpl in H. by apply andb_prop in H as [_ H].
Qed.

Lemma advances_healthy w w' :
  advances w w' → healthy (pg_faults w) = true → healthy (pg_faults w') = true.
Proof. intros (_ & _ & n & ->). apply healthy_drop. Qed.

Lemma order_failed_run e w :
  order_failed e w =
  if fails_at (pg_faults w) 0
  then (Throw PgError, pg_called (EvClientQuery SqlRollback) w)
  else (Ok tt,
        set_res (Response 500 (ErrorBody "Failed to create order"))
          (set_pg pg_rollback (pg_called (EvClientQuery SqlRollback) w))).
Proof.
  unfold order_failed, bind. rewrite client_rollback_run.
  by destruct (fails_at (pg_faults w) 0).
Qed.

(** The run on a request with a line that names no product, with a store
    that answers: the [catch] block rolls back and answers 500. *)
Lemma unknown_product_run user its w :
  tx (pg w) = None →
  healthy (pg_faults w) = true →
  ¬ Forall (product_exists (products (committed (pg w)))) its →
  ∃ w',
    post_orders (OrderRequest user (Some its)) w = (Ok tt, w') ∧
    tx (pg w') = None ∧
    res w' = Some (Response 500 (ErrorBody "Failed to create order")).
Proof.
  intros Htx Hok Hnot.
  destruct w as [[c txw oseq iseq] rd t pf rf tr rs]. simpl in *. subst txw.
  unfold post_orders, bind at 1, pool_connect. rewrite pg_call_run. world_simpl.
  rewrite (healthy_fails_at _ 0 Hok).
  unfold try_finally, try_catch, create_order, bind at 1.
  rewrite client_begin_run. world_simpl.
  rewrite fails_at_tail, (healthy_fails_at _ 1 Hok).
  unfold bind at 1. rewrite client_insert_order_run. world_simpl.
  rewrite !fails_at_tail, (healthy_fails_at _ 2 Hok).
  unfold bind at 1, for_of_items. world_simpl.
  match goal with
  | |- context [add_order_items ?o ?i ?z ?w] =>
    set (w1 := w);
    pose proof (steps_add_order_items o i z w1) as Hadv;
    pose proof (add_order_items_ok o i z w1 (insert_order_row
                  (Order (oseq + 1) user "pending" 0 t) c)) as Hloop;
    destruct (add_order_items o i z w1) as [[total|e] w2]
  end.
  - by destruct (Hloop total w2) as (Hall & _); [done..|].
  - clear Hloop. cbn in Hadv.
    assert (Hok2 : healthy (pg_faults w2) = true).
    { eapply advances_healthy; [done|]. subst w1. cbn. by do 3 apply healthy_tail. }
    rewrite order_failed_run, (healthy_fails_at _ 0 Hok2).
    by eexists.
Qed.

(** X7. With a store that answers, the handler of the orders always
    answers and leaves no transaction open, whatever the request and
    whatever the cache does.  The answer is 201 only for a request with
    [items] whose lines all name a product of the catalog and with an
    invalidation that goes through, and then it carries the identifier
    drawn from the sequence; in every other case (no [items], an unknown
    product, a cache that is down) it is 500 with ['Failed to create
    order']. *)
Theorem post_orders_answers_when_store_up req w :
  tx (pg w) = None →
  healthy (pg_faults w) = true →
  let r := post_orders req w in
  r.1 = Ok tt ∧
  tx (pg r.2) = None ∧
  ((∃ its,
      items req = Some its ∧
      Forall (product_exists (products (committed (pg w)))) its ∧
      fails_at (redis_faults w) 0 = false ∧
      ∃ total,
        res r.2 = Some (Response 201 (OrderCreated (orders_id_seq (pg w) + 1) total))) ∨
   res r.2 = Some (Response 500 (ErrorBody "Failed to create order"))).
Proof.
  intros Htx Hok r. subst r. destruct req as [user [its|]].
  - destruct (decide (Forall (λ it, is_Some (price_of (products (committed (pg w)))
                                       (item_product_id it))) its))
      as [Hall|Hnot].
    + rewrite healthy_run by done.
      destruct (fails_at (redis_faults w) 0) eqn:Hdel; cbn; [by eauto|].
      split; [done|]. split; [done|]. left. exists its.
      split; [done|]. split; [done|]. split; [done|]. by eexists.
    + destruct (unknown_product_run user its w Htx Hok Hnot) as (w' & -> & Ht & Hr).
      by eauto.
  - rewrite no_items_run by done. cbn. by eauto.
Qed.

(** ** The bookkeeping of the store *)

(** What a run of the handler does to the store: the sequences do not go
    back, and the committed tables are kept or get the whole order. *)
Lemma order_cases_store req w :
  tx (pg w) = None →
  let w' := (post_orders req w).2 in
  advances w w' ∧
  (committed (pg w') = committed (pg w) ∨
   ∃ its,
     items req = Some its ∧
     Forall (product_exists (products (committed (pg w)))) its ∧
     pg w' = pg_with_order (pg w) (now w) (user_id req) its).
Proof.
  intros Htx w'. split; [apply steps_post_orders|].
  destruct (order_cases req w Htx)
    as [Hc _ _ | its Hits Hall _ Hw' | its Hits Hall _ Hpg _ _].
  - by left.
  - right. exists its. fold w' in Hw'. by rewrite Hw'.
  - right. by exists its.
Qed.

Lemma set_total_id total oid (os : list order) :
  order_id <$> (set_total total oid <$> os) = order_id <$> os.
Proof.
  rewrite <- list_fmap_compose. apply list_fmap_ext. intros _ o _.
  unfold set_total. cbn. by case_match.
Qed.

Lemma order_item_rows_ids ps oid seq its :
  Forall (λ r, seq < order_item_id r ≤ seq + Z.of_nat (length its))
    (order_item_rows ps oid seq its) ∧
  NoDup (order_item_id <$> order_item_rows ps oid seq its).
Proof.
  revert seq. induction its as [|it rest IH]; intros seq.
  - split; constructor.
  - destruct (IH (seq + 1)) as [Hids Hnodup]. simpl. split.
    + constructor; [cbn; lia|].
      eapply Forall_impl; [done|]. cbn. lia.
    + constructor; [|done]. cbn.
      intros Hin. apply list_elem_of_fmap in Hin as (r & Hr & Hin).
      eapply Forall_forall in Hids; [|done]. lia.
Qed.

(** X8. The identifiers stay those of the sequences.  When the
    identifiers of [orders] and of [order_items] are below their sequences
    and without repetition before the handler runs, they are so after it,
    whatever the request and whatever fails: no run gives an order or an
    order item an identifier that is in use. *)
Theorem post_orders_keeps_ids_unique req w :
  tx (pg w) = None →
  ids_from_sequences (pg w) →
  ids_from_sequences (pg (post_orders req w).2).
Proof.
  intros Htx (Ho & Hi & Hno & Hni).
  destruct (order_cases_store req w Htx) as [(Hso & Hsi & _) [Hc|(its & _ & _ & Hpg)]].
  - unfold ids_from_sequences. rewrite Hc. repeat split; [| |done..].
    + eapply Forall_impl; [done|]. cbn. lia.
    + eapply Forall_impl; [done|]. cbn. lia.
  - unfold ids_from_sequences. rewrite Hpg. unfold pg_with_order, tables_with_order.
    cbn [committed orders order_items orders_id_seq order_items_id_seq
         update_order_total_rows].
    destruct (order_item_rows_ids (products (committed (pg w))) (orders_id_seq (pg w) + 1)
                (order_items_id_seq (pg w)) its) as [Hids Hnodup].
    repeat split.
    + apply Forall_fmap, Forall_app. split.
      * eapply Forall_impl; [done|]. intros o Hle. unfold set_total. cbn in *.
        case_match; cbn; lia.
      * constructor; [|done]. unfold set_total. cbn. case_match; cbn; lia.
    + apply Forall_app. split.
      * eapply Forall_impl; [done|]. cbn. lia.
      * eapply Forall_impl; [done|]. cbn. lia.
    + rewrite set_total_id, fmap_app. apply NoDup_app. split; [done|].
      split; [|by apply NoDup_singleton].
      intros id Hin Hnew. apply list_elem_of_fmap in Hin as (o & -> & Hin).
      apply list_elem_of_singleton in Hnew. cbn in Hnew.
      eapply Forall_forall in Ho; [|done]. cbn in Ho. lia.
    + rewrite fmap_app. apply NoDup_app. split; [done|]. split; [|done].
      intros id Hin Hnew.
      apply list_elem_of_fmap in Hin as (r & -> & Hin).
      apply list_elem_of_fmap in Hnew as (r' & Heq & Hnew).
      eapply Forall_forall in Hi; [|done].
      eapply Forall_forall in Hids; [|done]. cbn in *. lia.
Qed.

Lemma order_item_rows_references ps oid seq its :
  Forall (product_exists ps) its →
  Forall (λ r, order_item_order_id r = oid ∧
               ∃ p, p ∈ ps ∧ product_id p = order_item_product_id r)
    (order_item_rows ps oid seq its).
Proof.
  intros Hall. revert seq.
  induction Hall as [|it rest [price Hprice] _ IH]; intros seq; simpl; constructor.
  - split; [done|]. cbn. apply price_of_elem in Hprice as (p & Hp & Hid & _).
    by exists p.
  - apply IH.
Qed.

(** X9. The foreign keys of [order_items] hold on.  When every committed
    order item names an order of [orders] and a product of [products]
    before the handler runs, this is so after it, whatever the request and
    whatever fails: no item is committed for a product that is not in the
    catalog, and none without its order. *)
Theorem post_orders_keeps_references req w :
  tx (pg w) = None →
  references_hold (committed (pg w)) →
  references_hold (committed (pg (post_orders req w).2)).
Proof.
  intros Htx Href.
  destruct (order_cases_store req w Htx) as [_ [Hc|(its & _ & Hall & Hpg)]];
    [by rewrite Hc|].
  rewrite Hpg. unfold references_hold, pg_with_order, tables_with_order.
  cbn [committed orders order_items products update_order_total_rows].
  set (oid := orders_id_seq (pg w) + 1).
  set (total := decimal_of_number (total_of_lines (products (committed (pg w))) its)).
  assert (Hkeep : ∀ (o : order) (l : list order),
            o ∈ l → ∃ o', o' ∈ set_total total oid <$> l ∧ order_id o' = order_id o).
  { intros o l Ho. exists (set_total total oid o). split.
    - by apply list_elem_of_fmap_2.
    - unfold set_total. by case_match. }
  apply Forall_app. split.
  - eapply Forall_impl; [done|]. intros r [(o & Ho & Hid) Hp]. split; [|done].
    destruct (Hkeep o (orders (committed (pg w)) ++
                [Order oid (user_id req) "pending" 0 (now w)])) as (o' & Ho' & Hid');
      [apply elem_of_app; by left|].
    exists o'. split; [done|]. congruence.
  - eapply Forall_impl; [by apply order_item_rows_references|].
    intros r [Hoid Hp]. split; [|done].
    destruct (Hkeep (Order oid (user_id req) "pending" 0 (now w))
                (orders (committed (pg w)) ++
                 [Order oid (user_id req) "pending" 0 (now w)])) as (o' & Ho' & Hid');
      [apply elem_of_app; right; apply list_elem_of_here|].
    exists o'. split; [done|]. by rewrite Hid', Hoid.
Qed.

Lemma rows_running_total_app total rows rows' oid :
  rows_running_total total (rows ++ rows') oid =
  rows_running_total (rows_running_total total rows oid) rows' oid.
Proof. apply foldl_app. Qed.

Lemma rows_running_total_other rows oid :
  Forall (λ r, order_item_order_id r ≠ oid) rows →
  ∀ total, rows_running_total total rows oid = total.
Proof.
  induction 1 as [|r rows Hr _ IH]; intros total; simpl; [done|]. rewrite IH.
  by destruct (Z.eqb_spec (order_item_order_id r) oid).
Qed.

Lemma rows_running_total_rows ps oid seq its :
  ∀ total,
    rows_running_total total (order_item_rows ps oid seq its) oid =
    running_total ps total its.
Proof.
  revert seq. induction its as [|it rest IH]; intros seq total; simpl; [done|].
  by rewrite Z.eqb_refl, IH.
Qed.

Lemma order_item_rows_order_id ps oid seq its :
  Forall (λ r, order_item_order_id r = oid) (order_item_rows ps oid seq its).
Proof.
  revert seq. induction its as [|it rest IH]; intros seq; simpl; constructor;
    [done|apply IH].
Qed.

(** X10. The totals can be computed again from the rows.  On a store
    whose order identifiers are below the sequence and whose foreign keys
    hold, when the total of every committed order is what the store keeps
    of the number its rows of [order_items] give (each price read as a
    number, times the quantity, added in the order of the table to 0 with
    the rounding of doubles) before the handler runs, this is so after it,
    whatever the request and whatever fails. *)
Theorem post_orders_keeps_totals req w :
  tx (pg w) = None →
  orders_from_seq (pg w) →
  references_hold (committed (pg w)) →
  totals_add_up (committed (pg w)) →
  totals_add_up (committed (pg (post_orders req w).2)).
Proof.
  intros Htx Hseq Href Htot.
  destruct (order_cases_store req w Htx) as [_ [Hc|(its & _ & Hall & Hpg)]];
    [by rewrite Hc|].
  rewrite Hpg. unfold totals_add_up, pg_with_order. cbn [committed].
  rewrite tables_with_order_orders by done.
  unfold tables_with_order. cbn [order_items update_order_total_rows].
  set (oid := orders_id_seq (pg w) + 1).
  set (ps := products (committed (pg w))).
  assert (Hold : Forall (λ r, order_item_order_id r ≠ oid)
                   (order_items (committed (pg w)))).
  { eapply Forall_impl; [done|]. intros r [(o & Ho & Hid) _]. cbn.
    eapply Forall_forall in Hseq; [|done]. cbn in Hseq. subst oid. lia. }
  apply Forall_app. split.
  - apply Forall_forall. intros o Ho.
    pose proof Ho as Hid. eapply Forall_forall in Hid; [|exact Hseq].
    pose proof Ho as Ht. eapply Forall_forall in Ht; [|exact Htot].
    cbn in Hid, Ht. rewrite Ht. unfold order_lines_total.
    rewrite rows_running_total_app.
    rewrite (rows_running_total_other (order_item_rows _ _ _ _)); [done|].
    eapply Forall_impl; [apply order_item_rows_order_id|].
    cbn. intros r ->. subst oid. lia.
  - constructor; [|done]. cbn [order_total order_id]. unfold order_lines_total.
    by rewrite rows_running_total_app, (rows_running_total_other _ _ Hold),
      rows_running_total_rows.
Qed.

(** X16. An order that fails still uses up an identifier.  The order row
    is inserted before the lines are looked at, and a rolled back insert
    does not give its number back to the sequence: after a request without
    [items], which commits nothing, the next order that goes through is
    answered 201 with the identifier after the next, and [orders] has a
    gap. *)
Theorem failed_order_burns_an_id user user' its w (t : Z) (pf rf : list bool) :
  tx (pg w) = None →
  healthy (pg_faults w) = true →
  healthy pf = true →
  fails_at rf 0 = false →
  Forall (product_exists (products (committed (pg w)))) its →
  let w1 := (post_orders (OrderRequest user None) w).2 in
  let next : world json := World (pg w1) (redis w1) t pf rf [] None in
  let w2 := (post_orders (OrderRequest user' (Some its)) next).2 in
  orders (committed (pg w1)) = orders (committed (pg w)) ∧
  (∃ total,
     res w2 = Some (Response 201 (OrderCreated (orders_id_seq (pg w) + 2) total))) ∧
  ∀ o, o ∈ orders (committed (pg w2)) →
       o ∈ orders (committed (pg w)) ∨ order_id o = orders_id_seq (pg w) + 2.
Proof.
  intros Htx Hok Hok' Hdel Hall w1 next w2. subst w2 next w1.
  rewrite no_items_run by done. cbn [snd pg redis].
  rewrite healthy_run by done. cbn [redis_faults]. rewrite Hdel.
  unfold order_placed, pg_with_order, tables_with_order.
  cbn [snd res pg committed orders orders_id_seq products update_order_total_rows].
  split; [done|].
  split; [eexists; do 3 f_equal; lia|].
  intros o Ho. apply list_elem_of_fmap in Ho as (o' & -> & Ho').
  apply elem_of_app in Ho' as [Ho'|Ho'%list_elem_of_singleton].
  - unfold set_total. case_match; [right; cbn; lia|by left].
  - subst o'. right. unfold set_total. cbn. case_match; cbn; lia.
Qed.

(** * The other routes *)

(** ** [GET /api/products/:id] *)

Lemma get_product_run id w :
  get_product id w =
  (Ok (if fails_at (pg_faults w) 0
       then Answer 500 (ErrorAnswer "Internal server error")
       else match select_product_rows id (products (committed (pg w))) with
            | [] => Answer 404 (ErrorAnswer "Product not found")
            | p :: _ => Answer 200 (ProductBody p)
            end),
   set_pg_faults (tail (pg_faults w)) w).
Proof.
  unfold get_product, try_catch, pool_select_product, bind, pg_await, get, ret.
  rewrite next_fault_fails_at.
  destruct (fails_at (pg_faults w) 0); [done|]. cbn.
  by destruct (select_product_rows id (products (committed (pg w)))).
Qed.

(** X11. The route of one product answers 500 when the store throws.
    When the store answers, it answers 404 with ['Product not found']
    exactly when no row of [products] has the identifier, and 200 with a
    row of [products] that has it otherwise, in stock or not.  It makes no
    call to the cache, whose state and plan do not matter to the answer,
    and it changes neither the store nor the cache. *)
Theorem get_product_answer id w :
  let ps := products (committed (pg w)) in
  let r := get_product id w in
  (fails_at (pg_faults w) 0 = true →
   r.1 = Ok (Answer 500 (ErrorAnswer "Internal server error"))) ∧
  (fails_at (pg_faults w) 0 = false →
   (r.1 = Ok (Answer 404 (ErrorAnswer "Product not found")) ↔
    ∀ p, p ∈ ps → product_id p ≠ id) ∧
   (r.1 = Ok (Answer 404 (ErrorAnswer "Product not found")) ∨
    ∃ p, r.1 = Ok (Answer 200 (ProductBody p)) ∧ p ∈ ps ∧ product_id p = id)) ∧
  (∀ c rf, (get_product id (set_redis_faults rf (set_redis (λ _, c) w))).1 = r.1) ∧
  pg r.2 = pg w ∧ redis r.2 = redis w ∧ redis_faults r.2 = redis_faults w.
Proof.
  intros ps r. subst r. rewrite !get_product_run. cbn [fst snd].
  split; [by intros ->|]. split; [|by split; [intros; rewrite get_product_run|]].
  intros ->. fold ps. unfold select_product_rows.
  destruct (filter (λ p, product_id p = id) ps) as [|p rows] eqn:Hrows.
  - split; [|by left]. split; [|done]. intros _ p Hp Hid.
    assert (Hin : p ∈ filter (λ p, product_id p = id) ps)
      by (by apply list_elem_of_filter).
    rewrite Hrows in Hin. by apply not_elem_of_nil in Hin.
  - assert (Hin : p ∈ filter (λ p, product_id p = id) ps)
      by (rewrite Hrows; apply list_elem_of_here).
    apply list_elem_of_filter in Hin as [Hid Hp].
    split; [|right; by exists p]. split; [done|]. intros Hnone.
    by destruct (Hnone p Hp).
Qed.

(** The rows a read of the listing answers with are those of the store. *)
Lemma listing_rows_from_store w rows :
  res (get_products JSON_parse JSON_stringify w).2 = Some (Response 200 (Rows rows)) →
  rows = select_in_stock_rows (products (committed (pg w))).
Proof.
  destruct (fails_at (redis_faults w) 0) eqn:Hget.
  { by rewrite get_fails_run. }
  destruct (truthy (cache_read (redis w) (now w) "products")) as [text|] eqn:Hread.
  - pose proof Hread as [Hc Hne]%truthy_Some.
    destruct (JSON_parse text) as [v|] eqn:Hparse.
    + by rewrite (hit_run _ _ w text v).
    + by rewrite (hit_unreadable_run w text).
  - destruct (fails_at (pg_faults w) 0) eqn:Hq.
    { by rewrite miss_store_fails_run. }
    destruct (fails_at (redis_faults w) 1) eqn:Hset.
    + by rewrite set_fails_run.
    + rewrite miss_run by done. cbn. congruence.
Qed.

(** X12. The two routes do not agree on a product that is out of stock.
    For a row of [products] with [stock <= 0], the only one with its
    identifier: the listing never has it among the rows it reads from the
    store, yet the route of one product answers 200 with it whenever the
    store answers. *)
Theorem out_of_stock_hidden_but_found w p :
  p ∈ products (committed (pg w)) →
  product_stock p ≤ 0 →
  (∀ q, q ∈ products (committed (pg w)) → product_id q = product_id p → q = p) →
  (∀ rows,
     res (get_products JSON_parse JSON_stringify w).2 =
       Some (Response 200 (Rows rows)) → p ∉ rows) ∧
  (fails_at (pg_faults w) 0 = false →
   (get_product (product_id p) w).1 = Ok (Answer 200 (ProductBody p))).
Proof.
  intros Hp Hstock Hkey. split.
  - intros rows Hres. apply listing_rows_from_store in Hres as ->.
    rewrite select_in_stock_rows_elem. lia.
  - intros Hq. rewrite get_product_run, Hq. cbn [fst]. unfold select_product_rows.
    destruct (filter (λ q, product_id q = product_id p) (products (committed (pg w))))
      as [|q rows] eqn:Hrows.
    + assert (Hin : p ∈ filter (λ q, product_id q = product_id p)
                        (products (committed (pg w))))
        by (by apply list_elem_of_filter).
      rewrite Hrows in Hin. by apply not_elem_of_nil in Hin.
    + assert (Hin : q ∈ filter (λ q, product_id q = product_id p)
                        (products (committed (pg w))))
        by (rewrite Hrows; apply list_elem_of_here).
      apply list_elem_of_filter in Hin as [Hid Hq'].
      by rewrite (Hkey q Hq' Hid).
Qed.

(** ** [GET /ready] *)

(** X13. The readiness probe always answers and changes nothing.  It
    answers 200 with [{ status: 'ready' }] exactly when both the store and
    the cache answer; otherwise 503 with the error of the first call that
    throws: the store is asked first, and when it throws the cache is not
    asked at all. *)
Theorem get_ready_answer w :
  let r := get_ready w in
  r.1 = Ok (if fails_at (pg_faults w) 0 then Answer 503 (NotReadyBody PgError)
            else if fails_at (redis_faults w) 0 then Answer 503 (NotReadyBody RedisError)
            else Answer 200 ReadyBody) ∧
  (r.1 = Ok (Answer 200 ReadyBody) ↔
   fails_at (pg_faults w) 0 = false ∧ fails_at (redis_faults w) 0 = false) ∧
  (fails_at (pg_faults w) 0 = true → redis_faults r.2 = redis_faults w) ∧
  pg r.2 = pg w ∧ redis r.2 = redis w.
Proof.
  intros r. subst r.
  unfold get_ready, try_catch, bind, pg_await, redis_await, ret.
  rewrite next_fault_fails_at.
  destruct (fails_at (pg_faults w) 0); cbn.
  { repeat split; try done. by intros [? _]. }
  rewrite next_fault_fails_at.
  destruct (fails_at (redis_faults w) 0); cbn; repeat split; try done.
  by intros [_ ?].
Qed.

(** ** [initDB] *)

Lemma insert_do_nothing_fresh ps p :
  Forall (λ q, product_id q ≠ product_id p) ps →
  insert_do_nothing ps p = ps ++ [p].
Proof.
  intros Hfresh. unfold insert_do_nothing.
  destruct (existsb _ ps) eqn:E; [|done].
  apply existsb_exists in E as (q & Hq & Heq).
  apply Z.eqb_eq in Heq. apply list_elem_of_In in Hq.
  eapply Forall_forall in Hfresh; [|done]. done.
Qed.

Lemma foldl_insert_do_nothing (new ps : list product) :
  NoDup (product_id <$> new) →
  (∀ p q, p ∈ ps → q ∈ new → product_id p ≠ product_id q) →
  foldl insert_do_nothing ps new = ps ++ new.
Proof.
  revert ps. induction new as [|q new IH]; intros ps Hnodup Hfresh.
  - by rewrite app_nil_r.
  - apply NoDup_cons in Hnodup as [Hq Hnodup]. cbn [foldl].
    rewrite insert_do_nothing_fresh.
    + rewrite IH; [by rewrite <- app_assoc|done|].
      intros p q' [Hp|Hp%list_elem_of_singleton]%elem_of_app Hq'.
      * apply Hfresh; [done|by right].
      * subst p. intros Heq. apply Hq. rewrite Heq.
        by apply list_elem_of_fmap_2.
    + apply Forall_forall. intros p Hp. apply Hfresh; [done|by left].
Qed.

Lemma insert_seed_rows_fresh seq t c :
  Forall (λ p, product_id p ≤ seq) (products c) →
  insert_seed_rows seq t c =
  Tables (products c ++ seed_products seq t) (orders c) (order_items c).
Proof.
  intros Hseq. unfold insert_seed_rows. rewrite foldl_insert_do_nothing; [done|..].
  - unfold seed_products. cbn. repeat constructor; set_unfold; lia.
  - intros p q Hp Hq. eapply Forall_forall in Hseq; [|done]. cbn in Hseq.
    unfold seed_products in Hq. set_unfold.
    destruct Hq as [Hq|[Hq|[Hq|[Hq|[]]]]]; subst q; cbn; lia.
Qed.

Local Arguments insert_seed_rows : simpl never.

Lemma initDB_run seq w :
  initDB seq w =
  (Ok tt,
   if fails_at (pg_faults w) 0
   then set_pg_faults (tail (pg_faults w)) w
   else set_pg (pool_write (insert_seed_rows seq (now w)))
          (set_pg_faults (tail (pg_faults w)) w)).
Proof.
  unfold initDB, try_catch, bind, pg_await, modify, ret.
  rewrite next_fault_fails_at. by destruct (fails_at (pg_faults w) 0).
Qed.

(** X14. [initDB] never throws, so the server starts whether or not the
    store answers.  When the store throws, no table is changed.  When it
    answers, on a [products] table whose identifiers are not above the
    sequence, the four seed rows are appended with the next four
    identifiers and the time of the query, whatever rows the table already
    holds; [orders], [order_items] and the cache are left as they are. *)
Theorem initDB_appends_seed seq w :
  let r := initDB seq w in
  r.1 = Ok tt ∧
  orders (committed (pg r.2)) = orders (committed (pg w)) ∧
  order_items (committed (pg r.2)) = order_items (committed (pg w)) ∧
  redis r.2 = redis w ∧
  (fails_at (pg_faults w) 0 = true →
   products (committed (pg r.2)) = products (committed (pg w))) ∧
  (fails_at (pg_faults w) 0 = false →
   Forall (λ p, product_id p ≤ seq) (products (committed (pg w))) →
   products (committed (pg r.2)) =
     products (committed (pg w)) ++ seed_products seq (now w)).
Proof.
  intros r. subst r. rewrite initDB_run. cbn [fst snd].
  destruct (fails_at (pg_faults w) 0); cbn; [done|].
  repeat split; try done. intros _ Hseq. by rewrite insert_seed_rows_fresh.
Qed.

(** X15. Starting the server twice seeds the catalog twice.  After two
    runs of [initDB] with a store that answers, the second one with the
    sequence four further, the table holds each seed row twice under
    different identifiers, and a listing read from the store then shows
    every seed product twice: nothing in [ON CONFLICT DO NOTHING] stops the
    second insert, since no identifier is taken. *)
Theorem initDB_twice_seeds_twice seq w (pf : list bool) (t : Z) :
  fails_at (pg_faults w) 0 = false →
  fails_at pf 0 = false →
  Forall (λ p, product_id p ≤ seq) (products (committed (pg w))) →
  let w1 := (initDB seq w).2 in
  let restarted := World (pg w1) (redis w1) t pf (redis_faults w1) (trace w1) (res w1) in
  let w2 := (initDB (seq + 4) restarted).2 in
  products (committed (pg w2)) =
    products (committed (pg w)) ++ seed_products seq (now w) ++ seed_products (seq + 4) t ∧
  product_name <$> products (committed (pg w2)) =
    (product_name <$> products (committed (pg w))) ++
    ["Laptop Pro"; "Wireless Mouse"; "Mechanical Keyboard"; "4K Monitor";
     "Laptop Pro"; "Wireless Mouse"; "Mechanical Keyboard"; "4K Monitor"] ∧
  ∀ p, p ∈ seed_products seq (now w) ++ seed_products (seq + 4) t →
       p ∈ select_in_stock_rows (products (committed (pg w2))).
Proof.
  intros Hq Hq' Hseq w1 restarted w2.
  assert (H1 : products (committed (pg w1)) =
               products (committed (pg w)) ++ seed_products seq (now w)).
  { subst w1. rewrite initDB_run, Hq. cbn. by rewrite insert_seed_rows_fresh. }
  assert (H2 : products (committed (pg w2)) =
               products (committed (pg w)) ++ seed_products seq (now w) ++
               seed_products (seq + 4) t).
  { subst w2. rewrite initDB_run. cbn [pg_faults restarted]. rewrite Hq'.
    cbn. rewrite insert_seed_rows_fresh.
    - cbn [products]. by rewrite H1, <- app_assoc.
    - rewrite H1. apply Forall_app. split.
      + eapply Forall_impl; [done|]. cbn. lia.
      + unfold seed_products. repeat constructor; cbn; lia. }
  split; [done|]. split.
  - rewrite H2, !fmap_app. done.
  - intros p Hp. rewrite select_in_stock_rows_elem, H2.
    split; [apply elem_of_app; by right|].
    assert (Hstock : ∀ s' t', Forall (λ p, 0 < product_stock p) (seed_products s' t'))
      by (intros; unfold seed_products; repeat constructor; cbn; lia).
    apply elem_of_app in Hp as [Hp|Hp];
      (eapply Forall_forall in Hp; [|apply Hstock]); done.
Qed.

End MoreProperties.

(** * The further properties at work *)

Lemma cached_listing_lives_300_seconds_witness :
  (truthy (cache_read (redis fresh) (now fresh) "products") = None ∧
   fails_at (redis_faults fresh) 0 = false ∧
   fails_at (pg_faults fresh) 0 = false ∧
   fails_at (redis_faults fresh) 1 = false) ∧
  let w1 := (get_products read_bracketed print_names fresh).2 in
  let moved := PgState (Tables [] [] []) None 0 0 in
  res (get_products read_bracketed print_names
         (World moved (redis w1) 1299 [] [] [] None)).2 =
    Some (Response 200
            (Parsed "[Laptop Pro,Wireless Mouse,Mechanical Keyboard,4K Monitor]")) ∧
  res (get_products read_bracketed print_names
         (World moved (redis w1) 1300 [] [] [] None)).2 =
    Some (Response 200 (Rows [])).
Proof.
  split; [by repeat split|].
  destruct (cached_listing_lives_300_seconds read_bracketed print_names fresh
              (PgState (Tables [] [] []) None 0 0) 1299
              eq_refl eq_refl eq_refl eq_refl) as [Hhit _].
  destruct (cached_listing_lives_300_seconds read_bracketed print_names fresh
              (PgState (Tables [] [] []) None 0 0) 1300
              eq_refl eq_refl eq_refl eq_refl) as [_ Hmiss].
  cbv zeta in *. split.
  - erewrite Hhit; [reflexivity|reflexivity|discriminate|reflexivity].
  - rewrite Hmiss; [reflexivity|]. by vm_compute.
Defined.

Lemma post_orders_all_or_nothing_witness :
  tx (pg one_order) = None ∧
  let c' := committed (pg (post_orders (OrderRequest 8 (Some [Item 1 1; Item 3 2]))
                             one_order).2) in
  order_id <$> orders c' = [1; 2] ∧
  order_items c' = [OrderItem 1 1 2 3 2999; OrderItem 2 2 1 1 129999;
                    OrderItem 3 2 3 2 8999].
Proof.
  split; [reflexivity|].
  destruct (post_orders_all_or_nothing (json := string)
              (OrderRequest 8 (Some [Item 1 1; Item 3 2])) one_order eq_refl)
    as [Hsame|(its & total & Hits & _ & Hc & _ & _)].
  - vm_compute in Hsame. discriminate Hsame.
  - injection Hits as <-. cbv zeta in *. rewrite Hc. split; reflexivity.
Defined.

Lemma post_orders_keeps_catalog_witness :
  tx (pg warm) = None ∧
  let w' := (post_orders (OrderRequest 7 (Some [Item 2 3])) warm).2 in
  products (committed (pg w')) = seeded ∧
  product_stock <$> products (committed (pg w')) = [50; 200; 100; 75].
Proof.
  split; [reflexivity|].
  destruct (post_orders_keeps_catalog (json := string)
              (OrderRequest 7 (Some [Item 2 3])) warm eq_refl) as (Hps & _).
  cbv zeta. by rewrite Hps.
Defined.

Lemma post_orders_answers_when_store_up_witness :
  (tx (pg cache_down) = None ∧ healthy (pg_faults cache_down) = true) ∧
  let r := post_orders (OrderRequest 7 (Some [Item 2 3])) cache_down in
  r.1 = Ok tt ∧ tx (pg r.2) = None ∧
  res r.2 = Some (Response 500 (ErrorBody "Failed to create order")).
Proof.
  split; [by split|].
  destruct (post_orders_answers_when_store_up (json := string)
              (OrderRequest 7 (Some [Item 2 3])) cache_down eq_refl eq_refl)
    as (Hok & Htx & [(its & _ & _ & Hdel & _)|Hres]).
  - by vm_compute in Hdel.
  - done.
Defined.

Lemma one_order_ids : ids_from_sequences (pg one_order).
Proof.
  repeat split; cbn; repeat constructor; cbn; try lia; set_solver.
Defined.

Lemma one_order_references : references_hold (committed (pg one_order)).
Proof.
  constructor; [|constructor]. split.
  - exists (Order 1 7 "pending" 8997 900). split; [set_solver|done].
  - exists (Product 2 "Wireless Mouse" "Ergonomic wireless mouse" 2999 200 "Mouse" 0).
    split; [|done]. unfold one_order, seeded. cbn. set_solver.
Defined.

Lemma post_orders_keeps_ids_unique_witness :
  (tx (pg one_order) = None ∧ ids_from_sequences (pg one_order)) ∧
  ids_from_sequences
    (pg (post_orders (OrderRequest 8 (Some [Item 1 1; Item 3 2])) one_order).2).
Proof.
  split; [split; [reflexivity|exact one_order_ids]|].
  exact (post_orders_keeps_ids_unique (json := string)
           (OrderRequest 8 (Some [Item 1 1; Item 3 2])) one_order eq_refl one_order_ids).
Defined.

Lemma post_orders_keeps_references_witness :
  (tx (pg one_order) = None ∧ references_hold (committed (pg one_order))) ∧
  references_hold
    (committed (pg (post_orders (OrderRequest 8 (Some [Item 1 1; Item 3 2]))
                      one_order).2)).
Proof.
  split; [split; [reflexivity|exact one_order_references]|].
  exact (post_orders_keeps_references (json := string)
           (OrderRequest 8 (Some [Item 1 1; Item 3 2])) one_order eq_refl
           one_order_references).
Defined.

Lemma post_orders_keeps_totals_witness :
  (tx (pg one_order) = None ∧
   orders_from_seq (pg one_order) ∧
   references_hold (committed (pg one_order)) ∧
   totals_add_up (committed (pg one_order))) ∧
  totals_add_up
    (committed (pg (post_orders (OrderRequest 8 (Some [Item 1 1; Item 3 2]))
                      one_order).2)).
Proof.
  assert (Hseq : orders_from_seq (pg one_order))
    by (repeat constructor; cbn; lia).
  assert (Htot : totals_add_up (committed (pg one_order)))
    by (repeat constructor).
  split; [by repeat split; try apply one_order_references|].
  exact (post_orders_keeps_totals (json := string)
           (OrderRequest 8 (Some [Item 1 1; Item 3 2])) one_order eq_refl Hseq
           one_order_references Htot).
Defined.

Lemma out_of_stock_hidden_but_found_witness :
  let keyboard := Product 3 "Mechanical Keyboard" "RGB mechanical keyboard" 8999 0
                          "Keyboard" 0 in
  (keyboard ∈ products (committed (pg sold_out)) ∧
   product_stock keyboard ≤ 0 ∧
   fails_at (pg_faults sold_out) 0 = false) ∧
  res (get_products read_bracketed print_names sold_out).2 =
    Some (Response 200
            (Rows [Product 1 "Laptop Pro" "High-performance laptop" 129999 50 "Laptop" 0])) ∧
  (get_product 3 sold_out).1 = Ok (Answer 200 (ProductBody keyboard)).
Proof.
  intros keyboard.
  assert (Hin : keyboard ∈ products (committed (pg sold_out)))
    by (unfold sold_out; cbn; set_solver).
  assert (Hkey : ∀ q, q ∈ products (committed (pg sold_out)) →
                   product_id q = product_id keyboard → q = keyboard).
  { intros q Hq Hid. unfold sold_out in Hq. cbn in Hq. set_unfold.
    destruct Hq as [Hq|[Hq|[]]]; subst q; [by vm_compute in Hid|done]. }
  split; [by repeat split|]. split; [reflexivity|].
  destruct (out_of_stock_hidden_but_found read_bracketed print_names sold_out keyboard
              Hin ltac:(cbn; lia) Hkey) as [_ Hfound].
  exact (Hfound eq_refl).
Defined.

Lemma initDB_twice_seeds_twice_witness :
  let empty : world string :=
    World (PgState (Tables [] [] []) None 0 0) ∅ 1000 [] [] [] None in
  (fails_at (pg_faults empty) 0 = false ∧
   Forall (λ p, product_id p ≤ 0) (products (committed (pg empty)))) ∧
  let w1 := (initDB 0 empty).2 in
  let w2 := (initDB 4 (World (pg w1) (redis w1) 2000 [] (redis_faults w1)
                         (trace w1) (res w1))).2 in
  product_id <$> products (committed (pg w2)) = [1; 2; 3; 4; 5; 6; 7; 8] ∧
  product_name <$> products (committed (pg w2)) =
    ["Laptop Pro"; "Wireless Mouse"; "Mechanical Keyboard"; "4K Monitor";
     "Laptop Pro"; "Wireless Mouse"; "Mechanical Keyboard"; "4K Monitor"].
Proof.
  intros empty.
  assert (Hseq : Forall (λ p, product_id p ≤ 0) (products (committed (pg empty))))
    by constructor.
  split; [by split|].
  destruct (initDB_twice_seeds_twice (json := string) 0 empty [] 2000
              eq_refl eq_refl Hseq) as (Hps & Hnames & _).
  cbv zeta in *. split; [|exact Hnames].
  exact (f_equal (fmap product_id) Hps).
Defined.

Lemma get_products_always_answers_witness :
  let r := get_products read_bracketed print_names cache_down in
  r.1 = Ok tt ∧
  res r.2 = Some (Response 500 (ErrorBody "Internal server error")) ∧
  pg r.2 = pg cache_down.
Proof.
  destruct (get_products_always_answers read_bracketed print_names cache_down)
    as (Hok & [[b Hres]|Hres] & Hpg & _).
  - by vm_compute in Hres.
  - by repeat split.
Defined.

Lemma get_product_answer_witness :
  (get_product 2 fresh).1 =
    Ok (Answer 200 (ProductBody
          (Product 2 "Wireless Mouse" "Ergonomic wireless mouse" 2999 200 "Mouse" 0))) ∧
  (get_product 999 fresh).1 = Ok (Answer 404 (ErrorAnswer "Product not found")) ∧
  (get_product 2 store_down).1 = Ok (Answer 500 (ErrorAnswer "Internal server error")) ∧
  (get_product 2 cache_down).1 = (get_product 2 fresh).1.
Proof.
  destruct (get_product_answer (json := string) 2 fresh) as (_ & Hup & Hcache & _).
  destruct (Hup eq_refl) as [_ [H404|(p & Hp & _)]]; [by vm_compute in H404|].
  destruct (get_product_answer (json := string) 999 fresh) as (_ & Hup' & _).
  destruct (Hup' eq_refl) as [_ [H404|(p' & _ & Hin & Hid)]].
  - destruct (get_product_answer (json := string) 2 store_down) as (Hdown & _).
    split; [reflexivity|]. split; [exact H404|]. split; [exact (Hdown eq_refl)|].
    exact (Hcache ∅ [true]).
  - vm_compute in Hin. exfalso. set_unfold.
    destruct Hin as [Hin|[Hin|[Hin|[Hin|[]]]]]; subst p'; by vm_compute in Hid.
Defined.

Lemma get_ready_answer_witness :
  (get_ready fresh).1 = Ok (Answer 200 ReadyBody) ∧
  (get_ready cache_down).1 = Ok (Answer 503 (NotReadyBody RedisError)) ∧
  (get_ready store_down).1 = Ok (Answer 503 (NotReadyBody PgError)).
Proof.
  destruct (get_ready_answer (json := string) fresh) as (H1 & _).
  destruct (get_ready_answer (json := string) cache_down) as (H2 & _).
  destruct (get_ready_answer (json := string) store_down) as (H3 & _).
  by repeat split.
Defined.

Lemma initDB_appends_seed_witness :
  let r := initDB 4 fresh in
  r.1 = Ok tt ∧
  product_id <$> products (committed (pg r.2)) = [1; 2; 3; 4; 5; 6; 7; 8] ∧
  products (committed (pg (initDB 4 store_down).2)) = seeded.
Proof.
  destruct (initDB_appends_seed (json := string) 4 fresh) as (Hok & _ & _ & _ & _ & Hup).
  destruct (initDB_appends_seed (json := string) 4 store_down)
    as (_ & _ & _ & _ & Hdown & _).
  assert (Hseq : Forall (λ p, product_id p ≤ 4) (products (committed (pg fresh))))
    by (repeat constructor; by vm_compute).
  cbv zeta in *. split; [exact Hok|]. split.
  - exact (f_equal (fmap product_id) (Hup eq_refl Hseq)).
  - exact (Hdown eq_refl).
Defined.

Lemma failed_order_burns_an_id_witness :
  (tx (pg fresh) = None ∧
   healthy (pg_faults fresh) = true ∧
   Forall (product_exists (products (committed (pg fresh)))) [Item 2 3]) ∧
  let w1 := (post_orders (OrderRequest 7 None) fresh).2 in
  let next : world string := World (pg w1) (redis w1) 1001 [] [] [] None in
  let w2 := (post_orders (OrderRequest 7 (Some [Item 2 3])) next).2 in
  orders (committed (pg w1)) = [] ∧
  (∃ total, res w2 = Some (Response 201 (OrderCreated 2 total))) ∧
  order_id <$> orders (committed (pg w2)) = [2].
Proof.
  assert (Hall : Forall (product_exists (products (committed (pg fresh)))) [Item 2 3])
    by (repeat constructor; by eexists).
  split; [by repeat split|].
  destruct (failed_order_burns_an_id (json := string) 7 7 [Item 2 3] fresh 1001 [] []
              eq_refl eq_refl eq_refl eq_refl Hall) as (H1 & H2 & _).
  cbv zeta in *. split; [exact H1|]. split; [exact H2|]. by vm_compute.
Defined.
